(* Shallow embedding of src/app/page.jsx (ReportGenerator).

   The React component is modelled as an explicit state: every [useState]
   value, the [abortControllerRef], the store of AbortControllers (whose
   'abort' listeners are shared with the interval callbacks), the active
   [setInterval] timers with the closure each one captured, the
   [useMemo]'d [activeReports] with the time it was last computed, and the
   wall clock.  User intents, timer callbacks and the passage of time are
   events; [step] runs the handler the source runs for each of them. *)

From Stdlib Require Import String Ascii List ZArith Bool Lia.
Import ListNotations.
Open Scope string_scope.
Open Scope Z_scope.

(* ------------------------------------------------------------------ *)
(** * Data model *)

(** A filter of a report type: [{ id, label, type, options }]
    ([options] is absent, here empty, for the 'date' filter). *)
Record FilterSpec := mkFilter {
  fid : string;
  flabel : string;
  ftype : string;
  foptions : list string
}.

(** An entry of [REPORT_TYPES]: [{ name, description, filters }]. *)
Record ReportTemplate := mkTemplate {
  name : string;
  description : string;
  tfilters : list FilterSpec
}.

Definition REPORT_TYPES : list (string * ReportTemplate) := [
  ("sales"%string, mkTemplate "Sales Report"
     "A comprehensive overview of sales performance including revenue by region, product category distribution, and period-over-period comparisons. Use this report to track sales trends and identify top-performing categories."
     [ mkFilter "dateRange" "Date Range" "date" [];
       mkFilter "region" "Region" "select" ["North"; "South"; "East"; "West"];
       mkFilter "productCategory" "Product Category" "select" ["Electronics"; "Clothing"; "Furniture"] ]);
  ("inventory"%string, mkTemplate "Inventory Report"
     "Detailed analysis of current inventory levels, stock movement, and warehouse capacity utilization. This report helps identify overstocked items, stockouts, and optimize inventory management."
     [ mkFilter "warehouse" "Warehouse" "select" ["Warehouse A"; "Warehouse B"; "Warehouse C"];
       mkFilter "productType" "Product Type" "select" ["Raw Materials"; "Finished Goods"; "Spare Parts"] ]);
  ("revenue"%string, mkTemplate "Revenue Report"
     "Financial performance analysis showing revenue streams, profit margins, and quarterly comparisons. Use this report for financial planning and identifying revenue growth opportunities."
     [ mkFilter "year" "Year" "select" ["2022"; "2023"; "2024"];
       mkFilter "quarter" "Quarter" "select" ["Q1"; "Q2"; "Q3"; "Q4"] ])
].

(** [REPORT_TYPES[value]] for the keys the Select offers, the object's own
    keys; [None] ([undefined]) for any other own-key miss.  Members
    inherited from Object.prototype are not modelled: the page only ever
    passes the catalog's keys. *)
Fixpoint lookup_report (value : string) (cat : list (string * ReportTemplate))
  : option ReportTemplate :=
  match cat with
  | [] => None
  | (k, t) :: cat' => if String.eqb k value then Some t else lookup_report value cat'
  end.

(** A plain JS object with string values, as its entries in key order. *)
Definition Obj := list (string * string).

(** [{ ...o, [k]: v }]: an existing key keeps its place, a new one is
    added last. *)
Fixpoint obj_set (o : Obj) (k v : string) : Obj :=
  match o with
  | [] => [(k, v)]
  | (k', v') :: o' => if String.eqb k' k then (k, v) :: o' else (k', v') :: obj_set o' k v
  end.

(** [Object.keys(o)]. *)
Definition obj_keys (o : Obj) : list string := map fst o.

(** The record built in the completion branch of the interval callback. *)
Record ReportRecord := mkReport {
  id : Z;
  type : string;
  rfilters : Obj;
  generatedAt : Z;
  expirationDate : Z;
  downloadLink : string
}.

(** [generationStatus]: [null] is [None]. *)
Inductive GenStatus := Generating | Completed | Cancelled.

(** An [AbortController]: its signal's [aborted] flag and the interval
    ids cleared by its 'abort' listeners. *)
Record Controller := mkController {
  aborted : bool;
  listeners : list nat
}.

(** A running [setInterval]: its id and the closure of
    [simulateGeneration]: the local [currentProgress] and the
    [selectedReport] and [filters] of the render that called
    [generateReport]. *)
Record Interval := mkInterval {
  iv_id : nat;
  currentProgress : Z;
  captured_report : option ReportTemplate;
  captured_filters : Obj
}.

Record State := mkState {
  selectedReport : option ReportTemplate;
  filters : Obj;
  generationStatus : option GenStatus;
  progress : Z;
  reportHistory : list ReportRecord;
  abortControllerRef : option nat;   (* index into [controllers] *)
  controllers : list Controller;
  intervals : list Interval;         (* timers not cleared yet *)
  next_interval : nat;               (* the id the next setInterval returns *)
  activeReports : list ReportRecord; (* the useMemo value *)
  memo_time : Z;                     (* the [now] it was computed with *)
  clock : Z                          (* Date.now() *)
}.

(** Setters, one per field. *)
Definition set_selectedReport x s := mkState x (filters s) (generationStatus s) (progress s) (reportHistory s) (abortControllerRef s) (controllers s) (intervals s) (next_interval s) (activeReports s) (memo_time s) (clock s).
Definition set_filters x s := mkState (selectedReport s) x (generationStatus s) (progress s) (reportHistory s) (abortControllerRef s) (controllers s) (intervals s) (next_interval s) (activeReports s) (memo_time s) (clock s).
Definition setGenerationStatus x s := mkState (selectedReport s) (filters s) x (progress s) (reportHistory s) (abortControllerRef s) (controllers s) (intervals s) (next_interval s) (activeReports s) (memo_time s) (clock s).
Definition setProgress x s := mkState (selectedReport s) (filters s) (generationStatus s) x (reportHistory s) (abortControllerRef s) (controllers s) (intervals s) (next_interval s) (activeReports s) (memo_time s) (clock s).
Definition set_ref x s := mkState (selectedReport s) (filters s) (generationStatus s) (progress s) (reportHistory s) x (controllers s) (intervals s) (next_interval s) (activeReports s) (memo_time s) (clock s).
Definition set_controllers x s := mkState (selectedReport s) (filters s) (generationStatus s) (progress s) (reportHistory s) (abortControllerRef s) x (intervals s) (next_interval s) (activeReports s) (memo_time s) (clock s).
Definition set_intervals x s := mkState (selectedReport s) (filters s) (generationStatus s) (progress s) (reportHistory s) (abortControllerRef s) (controllers s) x (next_interval s) (activeReports s) (memo_time s) (clock s).
Definition set_next_interval x s := mkState (selectedReport s) (filters s) (generationStatus s) (progress s) (reportHistory s) (abortControllerRef s) (controllers s) (intervals s) x (activeReports s) (memo_time s) (clock s).
Definition set_clock x s := mkState (selectedReport s) (filters s) (generationStatus s) (progress s) (reportHistory s) (abortControllerRef s) (controllers s) (intervals s) (next_interval s) (activeReports s) (memo_time s) x.

(** [useMemo(() => reportHistory.filter(r => r.expirationDate > now),
    [reportHistory])] with [now = new Date()] at the render. *)
Definition active_at (now : Z) (h : list ReportRecord) : list ReportRecord :=
  filter (fun r => now <? expirationDate r) h.

(** [setReportHistory(h)] followed by the render at time [now]: a new
    array is a changed dependency, so the memo is recomputed. *)
Definition setReportHistory (h : list ReportRecord) (now : Z) (s : State) : State :=
  mkState (selectedReport s) (filters s) (generationStatus s) (progress s) h
    (abortControllerRef s) (controllers s) (intervals s) (next_interval s)
    (active_at now h) now (clock s).

(* ------------------------------------------------------------------ *)
(** * Timers and abort controllers *)

Fixpoint list_set {A} (l : list A) (n : nat) (x : A) : list A :=
  match l, n with
  | [], _ => []
  | _ :: t, O => x :: t
  | h :: t, S n' => h :: list_set t n' x
  end.

(** [clearInterval(i)]: the timer is removed, its callback never runs
    again (also not a run already queued). *)
Definition clearInterval (i : nat) (s : State) : State :=
  set_intervals (filter (fun iv => negb (Nat.eqb (iv_id iv) i)) (intervals s)) s.

(** [controller.abort()]: a no-op on an aborted signal; otherwise the
    flag is set and the 'abort' listeners run, each clearing its interval. *)
Definition abort (c : nat) (s : State) : State :=
  match nth_error (controllers s) c with
  | None => s
  | Some k =>
      if aborted k then s
      else
        let s1 := set_controllers (list_set (controllers s) c (mkController true (listeners k))) s in
        fold_left (fun st i => clearInterval i st) (listeners k) s1
  end.

(** [signal.addEventListener('abort', cleanup)] where [cleanup] clears
    interval [i]. *)
Definition addEventListener (c : nat) (i : nat) (s : State) : State :=
  match nth_error (controllers s) c with
  | None => s
  | Some k => set_controllers (list_set (controllers s) c (mkController (aborted k) (listeners k ++ [i])%list)) s
  end.

(** [abortControllerRef.current?.signal.aborted]. *)
Definition ref_aborted (s : State) : bool :=
  match abortControllerRef s with
  | None => false
  | Some c => match nth_error (controllers s) c with
              | Some k => aborted k
              | None => false
              end
  end.

(* ------------------------------------------------------------------ *)
(** * The handlers of ReportGenerator *)

(** [deleteReport(reportId)] (lines 83-85), then the render at the
    current time recomputes the memo. *)
Definition deleteReport (reportId : Z) (s : State) : State :=
  setReportHistory (filter (fun report => negb (Z.eqb (id report) reportId)) (reportHistory s))
    (clock s) s.

(** [simulateGeneration()] (lines 99-139): starts the interval, whose
    closure captures [sel] and [F] (the render's [selectedReport] and
    [filters]), and registers its cleanup on [abortControllerRef.current]. *)
Definition simulateGeneration (sel : option ReportTemplate) (F : Obj) (s : State) : State :=
  let i := next_interval s in
  let s1 := set_next_interval (S i)
              (set_intervals (intervals s ++ [mkInterval i 0 sel F])%list s) in
  match abortControllerRef s1 with
  | Some c => addEventListener c i s1
  | None => s1
  end.

(** [generateReport()] (lines 87-142). *)
Definition generateReport (s : State) : State :=
  let s1 := match abortControllerRef s with
            | Some c => abort c s
            | None => s
            end in
  let c := length (controllers s1) in
  let s2 := set_ref (Some c) (set_controllers (controllers s1 ++ [mkController false []])%list s1) in
  let s3 := setProgress 0 (setGenerationStatus (Some Generating) s2) in
  simulateGeneration (selectedReport s) (filters s) s3.

(** The clock values read in the completion branch: [Date.now()] for
    [id], [new Date()] for [generatedAt], [Date.now()] for
    [expirationDate] and [Date.now()] for [downloadLink]. *)
Record ClockReads := mkReads {
  t_id : Z;
  t_gen : Z;
  t_exp : Z;
  t_link : Z
}.

(** Decimal digits of a non-negative integer, as in a template literal. *)
Fixpoint digits_aux (fuel : nat) (n : Z) (acc : string) : string :=
  match fuel with
  | O => acc
  | S f =>
      let acc' := String (ascii_of_nat (48 + Z.to_nat (n mod 10))) acc in
      if n <? 10 then acc' else digits_aux f (n / 10) acc'
  end.

Definition z_to_string (n : Z) : string :=
  if n <? 0 then "-" ++ digits_aux 64 (- n) "" else digits_aux 64 n "".

(** [28 * 24 * 60 * 60 * 1000]. *)
Definition RETENTION_MS : Z := 28 * 24 * 60 * 60 * 1000.

(** [newReport] (lines 117-124), for [selectedReport] = [t] and
    [filters] = [F] of the closure. *)
Definition newReport (t : ReportTemplate) (F : Obj) (r : ClockReads) : ReportRecord :=
  mkReport (t_id r) (name t) F (t_gen r) (t_exp r + RETENTION_MS)
    ("/api/download-report-" ++ z_to_string (t_link r)).

Fixpoint find_interval (i : nat) (l : list Interval) : option Interval :=
  match l with
  | [] => None
  | iv :: l' => if Nat.eqb (iv_id iv) i then Some iv else find_interval i l'
  end.

(** [currentProgress = p] inside the closure of interval [i]. *)
Definition set_currentProgress (i : nat) (p : Z) (s : State) : State :=
  set_intervals
    (map (fun iv => if Nat.eqb (iv_id iv) i
                    then mkInterval (iv_id iv) p (captured_report iv) (captured_filters iv)
                    else iv) (intervals s)) s.

(** One run of the callback of interval [i] (lines 101-130).  A cleared
    interval does not run.  With no [selectedReport] in the closure,
    [selectedReport.name] throws: the updates made before it stay, the
    rest of the branch is skipped.  The new history array makes the
    render that follows the callback recompute the memo with its own
    [new Date()], the wall clock of the step, as after a delete. *)
Definition tick (i : nat) (r : ClockReads) (s : State) : State :=
  match find_interval i (intervals s) with
  | None => s
  | Some iv =>
      if ref_aborted s then
        setProgress 0 (setGenerationStatus (Some Cancelled) (clearInterval i s))
      else
        let cp := currentProgress iv + 10 in
        let s1 := setProgress cp (set_currentProgress i cp s) in
        if 100 <=? cp then
          let s2 := setGenerationStatus (Some Completed) (clearInterval i s1) in
          match captured_report iv with
          | None => s2
          | Some t =>
              let s3 := setReportHistory (newReport t (captured_filters iv) r :: reportHistory s2)
                          (clock s2) s2 in
              set_ref None s3
          end
        else s1
  end.

(** [cancelGeneration()] (lines 152-159). *)
Definition cancelGeneration (s : State) : State :=
  let s1 := match abortControllerRef s with
            | Some c => set_ref None (abort c s)
            | None => s
            end in
  setProgress 0 (setGenerationStatus None s1).

(** [updateFilter(filterId, value)] (lines 161-163). *)
Definition updateFilter (filterId value : string) (s : State) : State :=
  set_filters (obj_set (filters s) filterId value) s.

(** The onValueChange / onChange handler of a filter control (lines
    220-223 and 239-242). *)
Definition onFilterChange (filterId value : string) (s : State) : State :=
  setGenerationStatus None (updateFilter filterId value s).

(** The onValueChange handler of the report type Select (lines 189-193). *)
Definition onSelectReport (value : string) (s : State) : State :=
  set_filters [] (setGenerationStatus None (set_selectedReport (lookup_report value REPORT_TYPES) s)).

(** The [disabled] expression of the Generate Report button (line 251),
    negated. *)
Definition generate_enabled (s : State) : bool :=
  match selectedReport s with
  | None => false
  | Some t => Nat.eqb (length (obj_keys (filters s))) (length (tfilters t))
  end.

(** The cleanup returned by the [useEffect] of lines 144-150, run when
    ReportGenerator unmounts. *)
Definition unmount (s : State) : State :=
  match abortControllerRef s with
  | Some c => abort c s
  | None => s
  end.

(** [arr.join(sep)]. *)
Fixpoint join (sep : string) (l : list string) : string :=
  match l with
  | [] => ""
  | [x] => x
  | x :: l' => x ++ sep ++ join sep l'
  end.

(** [formatFilterDisplay(filters)] (lines 170-174):
    [Object.entries(filters).map(([key, value]) => `${key}: ${value}`).join(' | ')]. *)
Definition formatFilterDisplay (filters : Obj) : string :=
  join " | " (map (fun kv => fst kv ++ ": " ++ snd kv) filters).

(** The property read [o[k]]: [undefined] (here [None]) for a missing key. *)
Fixpoint obj_get (o : Obj) (k : string) : option string :=
  match o with
  | [] => None
  | (k', v) :: o' => if String.eqb k' k then Some v else obj_get o' k
  end.

(** The status block of lines 261-302: its heading, whether the Cancel
    button, the Progress bar (with its value) and the completion message
    are rendered. *)
Record StatusPanel := mkPanel {
  heading : string;
  cancel_button : bool;
  progress_bar : option Z;
  completion_message : bool
}.

(** [{generationStatus && (...)}]: nothing for [null]; any other status,
    'cancelled' included, renders the block. *)
Definition status_panel (s : State) : option StatusPanel :=
  match generationStatus s with
  | None => None
  | Some g =>
      let generating := match g with Generating => true | _ => false end in
      Some (mkPanel (if generating then "Generating Report..." else "Report Generation Complete")
              generating
              (if generating then Some (progress s) else None)
              (match g with Completed => true | _ => false end))
  end.

Inductive Event :=
| SelectReport (value : string)
| SetFilter (filterId value : string)
| Generate
| Cancel
| Tick (i : nat) (r : ClockReads)
| Delete (reportId : Z)
| Wait (ms : Z).

Definition step (ev : Event) (s : State) : State :=
  match ev with
  | SelectReport v => onSelectReport v s
  | SetFilter f v => onFilterChange f v s
  | Generate => generateReport s
  | Cancel => cancelGeneration s
  | Tick i r => tick i r s
  | Delete rid => deleteReport rid s
  | Wait d => set_clock (clock s + d) s
  end.

Definition run (evs : list Event) (s : State) : State :=
  fold_left (fun st ev => step ev st) evs s.

(** The mounted component at time [t0]: every useState initial value,
    and the memo computed on the empty history. *)
Definition init (t0 : Z) : State :=
  mkState None [] None 0 [] None [] [] O [] t0 t0.

(** What the rendered page lets happen: a filter control exists only for
    a filter of the selected report, the Generate button only with a
    selected report and enabled, the Cancel button only while
    'generating', delete buttons only for listed reports, a timer
    callback only for a live interval. *)
Definition ui_allowed (s : State) (ev : Event) : bool :=
  match ev with
  | SelectReport v => existsb (fun kt => String.eqb (fst kt) v) REPORT_TYPES
  | SetFilter f _ =>
      match selectedReport s with
      | Some t => existsb (fun fs => String.eqb (fid fs) f) (tfilters t)
      | None => false
      end
  | Generate => generate_enabled s
  | Cancel => match generationStatus s with Some Generating => true | _ => false end
  | Tick i _ => match find_interval i (intervals s) with Some _ => true | None => false end
  | Delete rid => existsb (fun r => Z.eqb (id r) rid) (activeReports s)
  | Wait d => 0 <=? d
  end.

Fixpoint valid_trace (evs : list Event) (s : State) : bool :=
  match evs with
  | [] => true
  | ev :: evs' => ui_allowed s ev && valid_trace evs' (step ev s)
  end.

(** A state the page can reach from mounting. *)
Definition reachable (s : State) : Prop :=
  exists t0 evs, valid_trace evs (init t0) = true /\ run evs (init t0) = s.

Definition run_ticks (i : nat) (rs : list ClockReads) (s : State) : State :=
  run (map (fun r => Tick i r) rs) s.

(* ------------------------------------------------------------------ *)
(** * Invariants *)

(** At most one live interval; when there is one, [abortControllerRef]
    holds a controller that is not aborted and whose 'abort' listener
    clears it.  Interval ids are below the next id handed out. *)
Definition timer_inv (s : State) : Prop :=
  Forall (fun iv => (iv_id iv < next_interval s)%nat) (intervals s) /\
  (intervals s = [] \/
   exists iv c k, intervals s = [iv] /\ abortControllerRef s = Some c /\
     nth_error (controllers s) c = Some k /\ aborted k = false /\
     In (iv_id iv) (listeners k)).

(** Filter keys belong to the selected report, once each. *)
Definition filters_inv (s : State) : Prop :=
  match selectedReport s with
  | None => filters s = []
  | Some t => NoDup (map fid (tfilters t)) /\ NoDup (obj_keys (filters s)) /\
              incl (obj_keys (filters s)) (map fid (tfilters t))
  end.

(** "Exactly one entry per FilterSpec": every filter of [t] is a key of
    [F] exactly once, and [F] has no other key. *)
Definition one_entry_per_filter (t : ReportTemplate) (F : Obj) : Prop :=
  (forall f, In f (tfilters t) -> count_occ string_dec (obj_keys F) (fid f) = 1%nat) /\
  (forall k, In k (obj_keys F) -> In k (map fid (tfilters t))).

(** The status never reads 'cancelled'; 'generating' always has a live
    timer; the progress is a multiple of 10 in [0, 100]; a live timer's
    closure holds a selected report and the displayed progress, below 100. *)
Definition gen_inv (s : State) : Prop :=
  generationStatus s <> Some Cancelled /\
  (generationStatus s = Some Generating -> intervals s <> []) /\
  0 <= progress s <= 100 /\ progress s mod 10 = 0 /\
  Forall (fun iv => captured_report iv <> None /\ currentProgress iv = progress s /\
                    progress s <= 90) (intervals s).

Open Scope list_scope.
Open Scope Z_scope.

(* ------------------------------------------------------------------ *)
(** * States and predicates used in the proofs *)

(** The state [generateReport] leaves behind, from an invariant state. *)
Definition started (s : State) (Y : list Controller) : State :=
  mkState (selectedReport s) (filters s) (Some Generating) 0 (reportHistory s)
    (Some (length Y)) (Y ++ [mkController false [next_interval s]])
    [mkInterval (next_interval s) 0 (selectedReport s) (filters s)]
    (S (next_interval s)) (activeReports s) (memo_time s) (clock s).

(** The state a tick of the live interval leaves behind. *)
Definition after_tick (iv : Interval) (r : ClockReads) (s : State) : State :=
  let cp := currentProgress iv + 10 in
  if 100 <=? cp then
    match captured_report iv with
    | None => setGenerationStatus (Some Completed) (setProgress cp (set_intervals [] s))
    | Some t =>
        set_ref None
          (setReportHistory (newReport t (captured_filters iv) r :: reportHistory s) (clock s)
             (setGenerationStatus (Some Completed) (setProgress cp (set_intervals [] s))))
    end
  else
    setProgress cp
      (set_intervals [mkInterval (iv_id iv) cp (captured_report iv) (captured_filters iv)] s).

(** Interval [i] of an attempt for report [t] with filters [F] is the only
    live one, at [currentProgress = p], and the controller in the ref is
    not aborted. *)
Definition attempt (i : nat) (t : ReportTemplate) (F : Obj) (p : Z) (s : State) : Prop :=
  intervals s = [mkInterval i p (Some t) F] /\ ref_aborted s = false.

(** The memo always equals the history filtered at the time it was
    last computed. *)
Definition memo_inv (s : State) : Prop :=
  activeReports s = active_at (memo_time s) (reportHistory s).

(** Decimal value of a string of digits, to read a number back from
    the text [z_to_string] produces. *)
Definition digit_val (c : ascii) : Z := Z.of_nat (nat_of_ascii c) - 48.

Fixpoint str_val (s : string) : Z :=
  match s with
  | EmptyString => 0
  | String c s' => digit_val c * 10 ^ Z.of_nat (String.length s') + str_val s'
  end.

(* ------------------------------------------------------------------ *)
(** * Concrete runs *)

Definition reads0 : ClockReads := mkReads 0 0 0 0.

(** The spec's example: "Sales Report" with all three filters set. *)
Definition sales_setup : list Event :=
  [SelectReport "sales"; SetFilter "dateRange" "2024-01"; SetFilter "region" "North";
   SetFilter "productCategory" "Electronics"].

(** Generation started and three ticks run (progress 30). *)
Definition trace_gen3 : list Event := sales_setup ++ [Generate] ++ repeat (Tick 0 reads0) 3.
Definition s_gen3 : State := run trace_gen3 (init 0).
Definition iv_gen3 : Interval := hd (mkInterval 0 0 None []) (intervals s_gen3).

(** The "Sales Report" entry of the catalog. *)
Definition sales_report : ReportTemplate :=
  match lookup_report "sales" REPORT_TYPES with
  | Some t => t
  | None => mkTemplate "" "" []
  end.

(** "Sales Report" selected and its three filters set. *)
Definition s_sales_ready : State := run sales_setup (init 0).

(** "Sales Report" selected and no filter set: the Generate button is
    disabled here. *)
Definition s_sales_nofilters : State := run [SelectReport "sales"] (init 0).

(** The spec's example run to completion (ten ticks). *)
Definition trace_done : list Event := sales_setup ++ [Generate] ++ repeat (Tick 0 reads0) 10.
Definition s_done : State := run trace_done (init 0).

(** A filter edited after generation started, then the ten ticks. *)
Definition trace_edit_midway : list Event :=
  sales_setup ++ [Generate; SetFilter "region" "South"] ++ repeat (Tick 0 reads0) 10.

(** An "Inventory Report" generated at time 0, then 28 days and 1 ms pass. *)
Definition trace_expired : list Event :=
  [SelectReport "inventory"; SetFilter "warehouse" "Warehouse A";
   SetFilter "productType" "Spare Parts"; Generate] ++ repeat (Tick 0 reads0) 10 ++
  [Wait (RETENTION_MS + 1)].

(** The "Inventory Report" entry of the catalog. *)
Definition inventory_report : ReportTemplate :=
  match lookup_report "inventory" REPORT_TYPES with
  | Some t => t
  | None => mkTemplate "" "" []
  end.

(** Three "Inventory Report" runs completed at time 0: the first record
    expires 28 days after time 0, the other two 5 s later; then 28 days
    and 1 ms pass, so the first has expired but is still listed. *)
Definition inventory_setup : list Event :=
  [SelectReport "inventory"; SetFilter "warehouse" "Warehouse A"; SetFilter "productType" "Spare Parts"].
Definition trace_hub : list Event :=
  inventory_setup ++ [Generate] ++ repeat (Tick 0 (mkReads 1 0 0 0)) 10 ++
  [Generate] ++ repeat (Tick 1 (mkReads 2 0 5000 0)) 10 ++
  [Generate] ++ repeat (Tick 2 (mkReads 3 0 5000 0)) 10 ++ [Wait (RETENTION_MS + 1)].
Definition s_hub : State := run trace_hub (init 0).

(** Nine ticks after starting from [s_sales_ready]: the next tick completes. *)
Definition s_at90 : State := run (repeat (Tick 0 reads0) 9) (step Generate s_sales_ready).
Definition iv_at90 : Interval := hd (mkInterval 0 0 None []) (intervals s_at90).


(* ------------------------------------------------------------------ *)
(** * Lemmas on the helpers *)

Lemma list_set_length {A} (l : list A) n x : length (list_set l n x) = length l.
Proof. revert n; induction l as [|a l IH]; intros [|n]; simpl; auto. Qed.

Lemma nth_error_list_set_eq {A} (l : list A) n x :
  (n < length l)%nat -> nth_error (list_set l n x) n = Some x.
Proof.
  revert n; induction l as [|a l IH]; intros [|n] H; simpl in *; try lia; auto.
  apply IH; lia.
Qed.

Lemma nth_error_list_set_neq {A} (l : list A) n m x :
  m <> n -> nth_error (list_set l n x) m = nth_error l m.
Proof.
  revert n m; induction l as [|a l IH]; intros [|n] [|m] H; simpl; auto; try congruence.
Qed.

Lemma nth_error_app_length {A} (l : list A) x : nth_error (l ++ [x]) (length l) = Some x.
Proof. induction l; simpl; auto. Qed.

Lemma list_set_app_length {A} (l : list A) x y : list_set (l ++ [x]) (length l) y = l ++ [y].
Proof. induction l; simpl; congruence. Qed.

Lemma nth_error_app_lt {A} (l : list A) x n :
  nth_error l n <> None -> nth_error (l ++ [x]) n = nth_error l n.
Proof.
  revert n; induction l as [|a l IH]; intros [|n] H; simpl in *; auto; congruence.
Qed.

Lemma set_intervals_self s : set_intervals (intervals s) s = s.
Proof. destruct s; reflexivity. Qed.

Lemma fold_clear L s :
  exists X, fold_left (fun st i => clearInterval i st) L s = set_intervals X s /\
    (forall iv, In iv X <-> In iv (intervals s) /\ ~ In (iv_id iv) L).
Proof.
  revert s; induction L as [|a L IH]; intros s; simpl.
  - exists (intervals s); split; [symmetry; apply set_intervals_self|].
    intros iv; tauto.
  - destruct (IH (clearInterval a s)) as (X & Heq & HX).
    exists X; split; [rewrite Heq; reflexivity|].
    intros iv; rewrite HX; unfold clearInterval; simpl.
    rewrite filter_In, negb_true_iff, Nat.eqb_neq. intuition.
Qed.

(** Under [timer_inv], aborting the controller in [abortControllerRef]
    clears every live interval and marks that controller aborted. *)
Lemma abort_ref_clears s :
  timer_inv s ->
  exists Y, (match abortControllerRef s with Some c => abort c s | None => s end)
            = set_intervals [] (set_controllers Y s) /\
    length Y = length (controllers s) /\
    (forall c0 k0, abortControllerRef s = Some c0 ->
       nth_error (controllers s) c0 = Some k0 ->
       nth_error Y c0 = Some (mkController true (listeners k0))).
Proof.
  intros [_ Hinv].
  assert (Hempty : forall c, abortControllerRef s = Some c ->
            (forall k, nth_error (controllers s) c = Some k -> aborted k = false -> False) ->
            intervals s = []).
  { intros c Hc Hk. destruct Hinv as [Hn | (iv & c' & k & _ & Hc' & Hk' & Ha & _)]; auto.
    rewrite Hc in Hc'; injection Hc' as <-. exfalso; eauto. }
  destruct (abortControllerRef s) as [c|] eqn:Href.
  - unfold abort. destruct (nth_error (controllers s) c) as [k|] eqn:Hk.
    + destruct (aborted k) eqn:Ha.
      * assert (intervals s = []) as Hn.
        { apply (Hempty c eq_refl). intros k' Hk' Ha'. congruence. }
        exists (controllers s); split; [destruct s; simpl in *; subst; reflexivity|].
        split; [reflexivity|]. intros c0 k0 Hc0 Hk0. injection Hc0 as <-.
        rewrite Hk in Hk0; injection Hk0 as <-. rewrite Hk. destruct k; simpl in *; subst; reflexivity.
      * set (s1 := set_controllers (list_set (controllers s) c (mkController true (listeners k))) s).
        destruct (fold_clear (listeners k) s1) as (X & Heq & HX).
        exists (list_set (controllers s) c (mkController true (listeners k))).
        rewrite Heq. split; [|split].
        -- assert (X = []) as ->; [|reflexivity].
           destruct X as [|x X]; auto. exfalso.
           destruct (proj1 (HX x) (or_introl eq_refl)) as [Hin Hnot]. simpl in Hin.
           destruct Hinv as [Hn | (iv & c' & k' & Hiv & Hc' & Hk' & _ & Hl)];
             rewrite ?Hn, ?Hiv in Hin; [contradiction|].
           destruct Hin as [<- | []]. injection Hc' as <-. rewrite Hk in Hk'.
           injection Hk' as <-. contradiction.
        -- apply list_set_length.
        -- intros c0 k0 Hc0 Hk0. injection Hc0 as <-. rewrite Hk in Hk0; injection Hk0 as <-.
           apply nth_error_list_set_eq. apply nth_error_Some. congruence.
    + assert (intervals s = []) as Hn.
      { apply (Hempty c eq_refl). intros k' Hk' _. congruence. }
      exists (controllers s); split; [destruct s; simpl in *; subst; reflexivity|].
      split; [reflexivity|]. intros c0 k0 Hc0 Hk0. injection Hc0 as <-. congruence.
  - assert (intervals s = []) as Hn.
    { destruct Hinv as [Hn | (iv & c' & k & _ & Hc' & _)]; auto. discriminate. }
    exists (controllers s); split; [destruct s; simpl in *; subst; reflexivity|].
    split; [reflexivity|]. discriminate.
Qed.

Lemma generate_eq s :
  timer_inv s ->
  exists Y,
    generateReport s = started s Y /\
    length Y = length (controllers s) /\
    (forall c0 k0, abortControllerRef s = Some c0 ->
       nth_error (controllers s) c0 = Some k0 ->
       nth_error Y c0 = Some (mkController true (listeners k0))).
Proof.
  intros Hinv. destruct (abort_ref_clears s Hinv) as (Y & Heq & Hlen & Hab).
  exists Y. split; [|split; assumption].
  unfold generateReport. rewrite Heq.
  unfold simulateGeneration, addEventListener; cbn.
  rewrite nth_error_app_length, list_set_app_length. reflexivity.
Qed.

(** The state [cancelGeneration] leaves behind, from an invariant state. *)
Lemma cancel_eq s :
  timer_inv s ->
  exists Y,
    cancelGeneration s =
      mkState (selectedReport s) (filters s) None 0 (reportHistory s) None Y []
        (next_interval s) (activeReports s) (memo_time s) (clock s).
Proof.
  intros Hinv. destruct (abort_ref_clears s Hinv) as (Y & Heq & _).
  exists Y. unfold cancelGeneration.
  destruct (abortControllerRef s) as [c|] eqn:Href.
  - rewrite Heq. reflexivity.
  - rewrite Heq. destruct s; simpl in *; subst; reflexivity.
Qed.

(** A tick of an interval that is not live does nothing. *)
Lemma tick_dead i r s :
  find_interval i (intervals s) = None -> tick i r s = s.
Proof. intros H. unfold tick. rewrite H. reflexivity. Qed.

Lemma find_interval_none i l :
  (forall iv, In iv l -> iv_id iv <> i) -> find_interval i l = None.
Proof.
  induction l as [|iv l IH]; intros H; simpl; auto.
  destruct (Nat.eqb_spec (iv_id iv) i) as [E|E].
  - exfalso; apply (H iv); [left; reflexivity | exact E].
  - apply IH; intros; apply H; right; assumption.
Qed.

Lemma tick_live iv r s :
  intervals s = [iv] -> ref_aborted s = false ->
  tick (iv_id iv) r s = after_tick iv r s.
Proof.
  intros Hiv Hab. unfold tick, after_tick. rewrite Hiv. cbn. rewrite Nat.eqb_refl, Hab.
  unfold set_currentProgress. rewrite Hiv. cbn. rewrite Nat.eqb_refl.
  destruct (100 <=? currentProgress iv + 10); [|reflexivity].
  unfold clearInterval. cbn. rewrite Nat.eqb_refl. cbn.
  destruct (captured_report iv); reflexivity.
Qed.

Lemma ref_aborted_false s c k :
  abortControllerRef s = Some c -> nth_error (controllers s) c = Some k ->
  aborted k = false -> ref_aborted s = false.
Proof. intros Hc Hk Ha. unfold ref_aborted. rewrite Hc, Hk. exact Ha. Qed.

Lemma timer_inv_generate s : timer_inv s -> timer_inv (generateReport s).
Proof.
  intros Hinv. destruct (generate_eq s Hinv) as (Y & -> & _). unfold started. split; simpl.
  - constructor; [simpl; lia|constructor].
  - right. exists (mkInterval (next_interval s) 0 (selectedReport s) (filters s)), (length Y),
      (mkController false [next_interval s]).
    split; [reflexivity|]. split; [reflexivity|]. split; [apply nth_error_app_length|].
    simpl; auto.
Qed.

Lemma timer_inv_cancel s : timer_inv s -> timer_inv (cancelGeneration s).
Proof. intros Hinv. destruct (cancel_eq s Hinv) as (Y & ->). split; simpl; auto. Qed.

(** Every event keeps [timer_inv]; no UI guard is needed for it. *)
Lemma timer_inv_step ev s : timer_inv s -> timer_inv (step ev s).
Proof.
  intros Hinv. destruct ev as [v|f v| | |i r|rid|d]; simpl.
  - exact Hinv.
  - exact Hinv.
  - apply timer_inv_generate, Hinv.
  - apply timer_inv_cancel, Hinv.
  - destruct Hinv as [Hlt [Hn | (iv & c & k & Hiv & Hc & Hk & Ha & Hl)]].
    + rewrite tick_dead; [split; auto|]. rewrite Hn; reflexivity.
    + destruct (Nat.eq_dec i (iv_id iv)) as [->|Hne].
      * rewrite (tick_live iv r s Hiv (ref_aborted_false s c k Hc Hk Ha)).
        rewrite Hiv in Hlt. inversion Hlt as [|? ? Hlt0 _]; subst.
        unfold after_tick.
        destruct (100 <=? currentProgress iv + 10);
          [destruct (captured_report iv); split; simpl; auto|].
        split; simpl.
        -- constructor; [exact Hlt0|constructor].
        -- right. exists (mkInterval (iv_id iv) (currentProgress iv + 10) (captured_report iv)
                            (captured_filters iv)), c, k. auto.
      * rewrite tick_dead; [split; [exact Hlt|right; eauto 10]|].
        rewrite Hiv. simpl. destruct (Nat.eqb_spec (iv_id iv) i); congruence.
  - exact Hinv.
  - exact Hinv.
Qed.

Lemma timer_inv_run evs s : timer_inv s -> timer_inv (run evs s).
Proof.
  revert s; induction evs as [|ev evs IH]; intros s H; simpl; auto.
  apply IH, timer_inv_step, H.
Qed.

Lemma timer_inv_init t0 : timer_inv (init t0).
Proof. split; simpl; auto. Qed.

Lemma reachable_timer_inv s : reachable s -> timer_inv s.
Proof.
  intros (t0 & evs & _ & <-). apply timer_inv_run, timer_inv_init.
Qed.

(* ------------------------------------------------------------------ *)
(** * One generation attempt *)

Lemma run_app evs1 evs2 s : run (evs1 ++ evs2) s = run evs2 (run evs1 s).
Proof. unfold run. apply fold_left_app. Qed.

Lemma run_ticks_app i rs1 rs2 s :
  run_ticks i (rs1 ++ rs2) s = run_ticks i rs2 (run_ticks i rs1 s).
Proof. unfold run_ticks. rewrite map_app. apply run_app. Qed.

Lemma run_ticks_cons i r rs s : run_ticks i (r :: rs) s = run_ticks i rs (tick i r s).
Proof. reflexivity. Qed.

Lemma tick_attempt_mid i t F p r s :
  attempt i t F p s -> p + 10 < 100 ->
  tick i r s = setProgress (p + 10) (set_intervals [mkInterval i (p + 10) (Some t) F] s).
Proof.
  intros [Hiv Hab] Hlt.
  pose proof (tick_live (mkInterval i p (Some t) F) r s Hiv Hab) as Ht. cbn [iv_id] in Ht.
  rewrite Ht. unfold after_tick; simpl.
  destruct (Z.leb_spec 100 (p + 10)); [lia|reflexivity].
Qed.

Lemma tick_attempt_last i t F p r s :
  attempt i t F p s -> 100 <= p + 10 ->
  tick i r s =
    set_ref None
      (setReportHistory (newReport t F r :: reportHistory s) (clock s)
         (setGenerationStatus (Some Completed) (setProgress (p + 10) (set_intervals [] s)))).
Proof.
  intros [Hiv Hab] Hle.
  pose proof (tick_live (mkInterval i p (Some t) F) r s Hiv Hab) as Ht. cbn [iv_id] in Ht.
  rewrite Ht. unfold after_tick; simpl.
  destruct (Z.leb_spec 100 (p + 10)); [reflexivity|lia].
Qed.

Lemma attempt_advance i t F p s :
  attempt i t F p s -> attempt i t F (p + 10) (setProgress (p + 10) (set_intervals [mkInterval i (p + 10) (Some t) F] s)).
Proof. intros [_ Hab]. split; [reflexivity|exact Hab]. Qed.

(** Ticks before the last: only [progress] and [currentProgress] move. *)
Lemma ticks_mid i t F rs : forall p s,
  attempt i t F p s -> p + 10 * Z.of_nat (length rs) < 100 ->
  run_ticks i rs s =
    match rs with
    | [] => s
    | _ => setProgress (p + 10 * Z.of_nat (length rs))
             (set_intervals [mkInterval i (p + 10 * Z.of_nat (length rs)) (Some t) F] s)
    end.
Proof.
  induction rs as [|r rs IH]; intros p s Ha Hlt; [reflexivity|].
  rewrite run_ticks_cons. simpl length in Hlt.
  rewrite (tick_attempt_mid i t F p r s Ha) by lia.
  rewrite (IH (p + 10)) by (apply attempt_advance, Ha || lia).
  destruct rs as [|r' rs'].
  - simpl. replace (p + 10 * 1) with (p + 10) by lia. reflexivity.
  - replace (p + 10 + 10 * Z.of_nat (length (r' :: rs')))
      with (p + 10 * Z.of_nat (length (r :: r' :: rs'))) by (simpl length; lia).
    reflexivity.
Qed.

Lemma ticks_mid_attempt i t F rs p s :
  attempt i t F p s -> p + 10 * Z.of_nat (length rs) < 100 ->
  attempt i t F (p + 10 * Z.of_nat (length rs)) (run_ticks i rs s).
Proof.
  intros Ha Hlt. rewrite (ticks_mid i t F rs p s Ha Hlt).
  destruct rs as [|r rs]; [simpl; replace (p + 0) with p by lia; exact Ha|].
  destruct Ha as [_ Hab]. split; [reflexivity|exact Hab].
Qed.

(** The last tick: the attempt completes and prepends its record. *)
Lemma ticks_complete i t F rs r p s :
  attempt i t F p s -> p + 10 * Z.of_nat (length rs) = 90 ->
  run_ticks i (rs ++ [r]) s =
    set_ref None
      (setReportHistory (newReport t F r :: reportHistory s) (clock s)
         (setGenerationStatus (Some Completed) (setProgress 100 (set_intervals [] s)))).
Proof.
  intros Ha Heq. rewrite run_ticks_app.
  pose proof (ticks_mid_attempt i t F rs p s Ha ltac:(lia)) as Ha'.
  rewrite Heq in Ha'. unfold run_ticks at 1; simpl.
  rewrite (tick_attempt_last i t F 90 r _ Ha') by lia.
  rewrite (ticks_mid i t F rs p s Ha) by lia.
  destruct rs; reflexivity.
Qed.

(** The state [generateReport] starts is an attempt on a fresh interval id. *)
Lemma started_attempt s Y t :
  selectedReport s = Some t ->
  attempt (next_interval s) t (filters s) 0 (started s Y).
Proof.
  intros Hsel. split; [unfold started; simpl; rewrite Hsel; reflexivity|].
  unfold ref_aborted, started; simpl. rewrite nth_error_app_length. reflexivity.
Qed.



(** An attempt started with no report selected: its ticks advance like
    any other, and the tenth one sets 'completed' and then throws at
    [selectedReport.name], leaving no record and the ref in place. *)
Lemma ticks_none_complete i F rs r : forall p s,
  intervals s = [mkInterval i p None F] -> ref_aborted s = false ->
  p + 10 * Z.of_nat (length rs) = 90 ->
  run_ticks i (rs ++ [r]) s =
    setGenerationStatus (Some Completed) (setProgress 100 (set_intervals [] s)).
Proof.
  induction rs as [|r0 rs IH]; intros p s Hiv Hab Heq.
  - simpl in Heq. unfold run_ticks; simpl.
    pose proof (tick_live (mkInterval i p None F) r s Hiv Hab) as Ht. cbn [iv_id] in Ht.
    rewrite Ht. unfold after_tick; simpl.
    replace (p + 10) with 100 by lia. reflexivity.
  - simpl length in Heq. cbn [app]. rewrite run_ticks_cons.
    pose proof (tick_live (mkInterval i p None F) r0 s Hiv Hab) as Ht. cbn [iv_id] in Ht.
    rewrite Ht. unfold after_tick; simpl.
    destruct (Z.leb_spec 100 (p + 10)); [lia|].
    rewrite (IH (p + 10)); [destruct s; reflexivity | reflexivity | exact Hab | lia].
Qed.

(** The state [generateReport] starts with no report selected. *)
Lemma started_none s Y :
  selectedReport s = None ->
  intervals (started s Y) = [mkInterval (next_interval s) 0 None (filters s)] /\
  ref_aborted (started s Y) = false.
Proof.
  intros Hsel. split; [unfold started; simpl; rewrite Hsel; reflexivity|].
  unfold ref_aborted, started; simpl. rewrite nth_error_app_length. reflexivity.
Qed.

(* ------------------------------------------------------------------ *)
(** * Intervals never come back *)

Lemma find_interval_some i l iv :
  find_interval i l = Some iv -> In iv l /\ iv_id iv = i.
Proof.
  induction l as [|iv' l IH]; simpl; [discriminate|].
  destruct (Nat.eqb_spec (iv_id iv') i) as [E|E].
  - intros H; injection H as <-. auto.
  - intros H. destruct (IH H). auto.
Qed.

(** A live interval after an event was live before (same id, same
    closure), or is the one just created. *)
Lemma step_intervals ev s iv' :
  timer_inv s -> In iv' (intervals (step ev s)) ->
  (exists iv, In iv (intervals s) /\ iv_id iv = iv_id iv' /\
     captured_report iv = captured_report iv' /\ captured_filters iv = captured_filters iv')
  \/ iv_id iv' = next_interval s.
Proof.
  intros Hinv Hin. destruct ev as [v|f v| | |i r|rid|d]; unfold step in Hin;
    try (left; exists iv'; split; [exact Hin|auto]; fail).
  - destruct (generate_eq s Hinv) as (Y & Heq & _). rewrite Heq in Hin.
    unfold started in Hin; simpl in Hin. destruct Hin as [<- | []]. right; reflexivity.
  - destruct (cancel_eq s Hinv) as (Y & Heq). rewrite Heq in Hin. destruct Hin.
  - destruct (find_interval i (intervals s)) as [iv|] eqn:Hf.
    + destruct Hinv as [_ [Hn | (iv0 & c & k & Hiv & Hc & Hk & Ha & _)]].
      * rewrite Hn in Hf; discriminate.
      * destruct (find_interval_some _ _ _ Hf) as [Hin0 Hid]. rewrite Hiv in Hin0.
        destruct Hin0 as [<- | []]. subst i.
        rewrite (tick_live iv0 r s Hiv (ref_aborted_false s c k Hc Hk Ha)) in Hin.
        unfold after_tick in Hin.
        destruct (100 <=? currentProgress iv0 + 10);
          [destruct (captured_report iv0); destruct Hin|].
        simpl in Hin. destruct Hin as [<- | []].
        left. exists iv0. rewrite Hiv. simpl. auto.
    + rewrite (tick_dead i r s Hf) in Hin. left; exists iv'; auto.
Qed.

Lemma step_next_interval ev s :
  timer_inv s -> (next_interval s <= next_interval (step ev s))%nat.
Proof.
  intros Hinv. destruct ev as [v|f v| | |i r|rid|d]; unfold step; try apply Nat.le_refl.
  - destruct (generate_eq s Hinv) as (Y & -> & _). unfold started; simpl; lia.
  - destruct (cancel_eq s Hinv) as (Y & ->). simpl; lia.
  - destruct (find_interval i (intervals s)) as [iv|] eqn:Hf;
      [|rewrite (tick_dead i r s Hf); lia].
    destruct Hinv as [_ [Hn | (iv0 & c & k & Hiv & Hc & Hk & Ha & _)]];
      [rewrite Hn in Hf; discriminate|].
    destruct (find_interval_some _ _ _ Hf) as [Hin0 Hid]. rewrite Hiv in Hin0.
    destruct Hin0 as [<- | []]. subst i.
    rewrite (tick_live iv0 r s Hiv (ref_aborted_false s c k Hc Hk Ha)).
    unfold after_tick.
    destruct (100 <=? currentProgress iv0 + 10); [destruct (captured_report iv0)|]; simpl; lia.
Qed.

(** A live interval with an old id was live, with the same closure, at
    the start of any run. *)
Lemma run_intervals evs : forall s iv',
  timer_inv s -> In iv' (intervals (run evs s)) -> (iv_id iv' < next_interval s)%nat ->
  exists iv, In iv (intervals s) /\ iv_id iv = iv_id iv' /\
    captured_report iv = captured_report iv' /\ captured_filters iv = captured_filters iv'.
Proof.
  induction evs as [|ev evs IH]; intros s iv' Hinv Hin Hlt; simpl in Hin.
  - exists iv'; auto.
  - pose proof (step_next_interval ev s Hinv) as Hle.
    destruct (IH (step ev s) iv' (timer_inv_step ev s Hinv) Hin ltac:(lia))
      as (iv1 & Hin1 & Hid1 & Hr1 & Hf1).
    destruct (step_intervals ev s iv1 Hinv Hin1) as [(iv0 & Hin0 & Hid0 & Hr0 & Hf0) | Hnew].
    + exists iv0. repeat split; congruence.
    + lia.
Qed.

(** An interval id that is not live stays dead: its ticks never run. *)
Lemma dead_forever s i :
  timer_inv s -> (forall iv, In iv (intervals s) -> iv_id iv <> i) ->
  (i < next_interval s)%nat ->
  forall evs r, step (Tick i r) (run evs s) = run evs s.
Proof.
  intros Hinv Hdead Hlt evs r. simpl. apply tick_dead.
  destruct (find_interval i (intervals (run evs s))) as [iv'|] eqn:Hf; [|reflexivity].
  exfalso. destruct (find_interval_some _ _ _ Hf) as [Hin Hid].
  destruct (run_intervals evs s iv' Hinv Hin ltac:(lia)) as (iv & Hin0 & Hid0 & _).
  apply (Hdead iv Hin0). congruence.
Qed.

(* ------------------------------------------------------------------ *)
(** * Filters *)

Lemma obj_keys_set o k v x :
  In x (obj_keys (obj_set o k v)) <-> In x (obj_keys o) \/ x = k.
Proof.
  induction o as [|[k' v'] o IH]; simpl.
  - intuition.
  - destruct (String.eqb_spec k' k) as [<-|E]; simpl.
    + intuition.
    + rewrite IH. intuition.
Qed.

Lemma obj_set_nodup o k v :
  NoDup (obj_keys o) -> NoDup (obj_keys (obj_set o k v)).
Proof.
  induction o as [|[k' v'] o IH]; simpl; intros H.
  - constructor; [intros []|constructor].
  - inversion H as [|? ? Hn Hd]; subst.
    destruct (String.eqb_spec k' k) as [<-|E]; simpl.
    + constructor; auto.
    + constructor; [|auto]. rewrite obj_keys_set. intuition.
Qed.

Lemma lookup_report_in v cat t :
  lookup_report v cat = Some t -> In t (map snd cat).
Proof.
  induction cat as [|[k t'] cat IH]; simpl; [discriminate|].
  destruct (String.eqb k v); [intros H; injection H as <-; auto|auto].
Qed.

Lemma lookup_report_nodup v t :
  lookup_report v REPORT_TYPES = Some t -> NoDup (map fid (tfilters t)).
Proof.
  intros H. apply lookup_report_in in H. simpl in H.
  destruct H as [<- | [<- | [<- | []]]]; simpl;
    repeat constructor; simpl; intuition discriminate.
Qed.

Lemma tick_keeps_selection i r s :
  selectedReport (tick i r s) = selectedReport s /\ filters (tick i r s) = filters s.
Proof.
  unfold tick. destruct (find_interval i (intervals s)) as [iv|]; [|auto].
  destruct (ref_aborted s); [auto|].
  destruct (100 <=? currentProgress iv + 10); [destruct (captured_report iv)|]; auto.
Qed.

Lemma filters_inv_step ev s :
  timer_inv s -> filters_inv s -> ui_allowed s ev = true -> filters_inv (step ev s).
Proof.
  intros Hti Hfi Hui. destruct ev as [v|f v| | |i r|rid|d]; unfold step.
  - unfold filters_inv, onSelectReport; cbn -[lookup_report REPORT_TYPES].
    destruct (lookup_report v REPORT_TYPES) as [t|] eqn:Hl; [|reflexivity].
    split; [eapply lookup_report_nodup; eauto|]. split; [constructor|intros x []].
  - unfold filters_inv in *. unfold ui_allowed in Hui. simpl.
    destruct (selectedReport s) as [t|]; [|discriminate].
    destruct Hfi as (Hid & Hnd & Hinc). split; [exact Hid|]. split.
    + apply obj_set_nodup, Hnd.
    + intros x Hx. apply obj_keys_set in Hx. destruct Hx as [Hx | ->]; [auto|].
      apply existsb_exists in Hui. destruct Hui as (fs & Hfs & He).
      apply String.eqb_eq in He. subst f. apply in_map, Hfs.
  - destruct (generate_eq s Hti) as (Y & -> & _). exact Hfi.
  - destruct (cancel_eq s Hti) as (Y & ->). exact Hfi.
  - unfold filters_inv. destruct (tick_keeps_selection i r s) as [-> ->]. exact Hfi.
  - exact Hfi.
  - exact Hfi.
Qed.

Lemma reachable_filters_inv s : reachable s -> filters_inv s.
Proof.
  intros (t0 & evs & Hv & <-).
  assert (H : forall evs s, timer_inv s -> filters_inv s -> valid_trace evs s = true ->
                filters_inv (run evs s)).
  { clear. induction evs as [|ev evs IH]; intros s Hti Hfi Hv; simpl in *; auto.
    apply andb_true_iff in Hv. destruct Hv as [Hui Hv].
    apply IH; auto using timer_inv_step, filters_inv_step. }
  apply H; [apply timer_inv_init|reflexivity|exact Hv].
Qed.

(* ------------------------------------------------------------------ *)
(** * History and memo *)

(** A record stays in the history until a delete names its id. *)
Lemma history_keeps ev s r :
  In r (reportHistory s) -> ev <> Delete (id r) -> In r (reportHistory (step ev s)).
Proof.
  intros Hin Hne. destruct ev as [v|f v| | |i r'|rid|d]; unfold step; auto.
  - unfold generateReport, simulateGeneration, addEventListener.
    destruct (abortControllerRef s) as [c|].
    + unfold abort. destruct (nth_error (controllers s) c);
        [destruct (aborted c0);
         [|destruct (fold_clear (listeners c0)
              (set_controllers (list_set (controllers s) c (mkController true (listeners c0))) s))
             as (X & -> & _)]|];
        simpl; destruct (nth_error _ _); exact Hin.
    + simpl. destruct (nth_error _ _); exact Hin.
  - unfold cancelGeneration. destruct (abortControllerRef s) as [c|]; [|exact Hin].
    unfold abort. destruct (nth_error (controllers s) c); [|exact Hin].
    destruct (aborted c0); [exact Hin|].
    destruct (fold_clear (listeners c0)
      (set_controllers (list_set (controllers s) c (mkController true (listeners c0))) s))
      as (X & -> & _). exact Hin.
  - unfold tick. destruct (find_interval i (intervals s)) as [iv|]; [|exact Hin].
    destruct (ref_aborted s); [exact Hin|].
    destruct (100 <=? currentProgress iv + 10); [destruct (captured_report iv)|]; simpl; auto.
  - unfold deleteReport; simpl. unfold setReportHistory; simpl.
    apply filter_In. split; [exact Hin|].
    apply negb_true_iff, Z.eqb_neq. intros E. apply Hne. subst rid. reflexivity.
Qed.

Lemma history_keeps_run evs s r :
  In r (reportHistory s) -> ~ In (Delete (id r)) evs -> In r (reportHistory (run evs s)).
Proof.
  revert s; induction evs as [|ev evs IH]; intros s Hin Hni; simpl; auto.
  apply IH.
  - apply history_keeps; [exact Hin|]. intros E; apply Hni; left; auto.
  - intros Hd; apply Hni; right; exact Hd.
Qed.

Lemma memo_inv_step ev s : memo_inv s -> memo_inv (step ev s).
Proof.
  unfold memo_inv. intros H. destruct ev as [v|f v| | |i r|rid|d]; unfold step; auto.
  - unfold generateReport, simulateGeneration, addEventListener.
    destruct (abortControllerRef s) as [c|].
    + unfold abort. destruct (nth_error (controllers s) c);
        [destruct (aborted c0);
         [|destruct (fold_clear (listeners c0)
              (set_controllers (list_set (controllers s) c (mkController true (listeners c0))) s))
             as (X & -> & _)]|];
        simpl; destruct (nth_error _ _); exact H.
    + simpl. destruct (nth_error _ _); exact H.
  - unfold cancelGeneration. destruct (abortControllerRef s) as [c|]; [|exact H].
    unfold abort. destruct (nth_error (controllers s) c); [|exact H].
    destruct (aborted c0); [exact H|].
    destruct (fold_clear (listeners c0)
      (set_controllers (list_set (controllers s) c (mkController true (listeners c0))) s))
      as (X & -> & _). exact H.
  - unfold tick. destruct (find_interval i (intervals s)) as [iv|]; [|exact H].
    destruct (ref_aborted s); [exact H|].
    destruct (100 <=? currentProgress iv + 10); [destruct (captured_report iv)|]; reflexivity || exact H.
Qed.

Lemma memo_inv_run evs s : memo_inv s -> memo_inv (run evs s).
Proof.
  revert s; induction evs as [|ev evs IH]; intros s H; simpl; auto.
  apply IH, memo_inv_step, H.
Qed.

(* ------------------------------------------------------------------ *)
(** Status, progress and the live timers through every UI step. *)

Lemma gen_inv_same s s' :
  (generationStatus s' = None \/ generationStatus s' = generationStatus s) ->
  progress s' = progress s -> intervals s' = intervals s -> gen_inv s -> gen_inv s'.
Proof.
  intros Hg Hp Hi (H1 & H2 & H3 & H4 & H5). unfold gen_inv. rewrite Hp, Hi.
  destruct Hg as [Hg | Hg]; rewrite Hg.
  - split; [discriminate|]. split; [discriminate|]. auto.
  - auto.
Qed.

Lemma gen_inv_init t0 : gen_inv (init t0).
Proof.
  split; [discriminate|]. split; [discriminate|]. split; [simpl; lia|].
  split; [reflexivity|constructor].
Qed.

Lemma gen_inv_step ev s :
  timer_inv s -> gen_inv s -> ui_allowed s ev = true -> gen_inv (step ev s).
Proof.
  intros Hti Hg Hui. destruct ev as [v|f v| | |i r|rid|d].
  - apply (gen_inv_same s); [left|..]; reflexivity || exact Hg.
  - apply (gen_inv_same s); [left|..]; reflexivity || exact Hg.
  - change (step Generate s) with (generateReport s).
    destruct (generate_eq s Hti) as (Y & -> & _).
    simpl in Hui. unfold generate_enabled in Hui.
    unfold gen_inv, started; simpl.
    split; [discriminate|]. split; [discriminate|]. split; [lia|]. split; [reflexivity|].
    constructor; [|constructor]. simpl. split; [|split; [reflexivity|lia]].
    destruct (selectedReport s); [discriminate|discriminate Hui].
  - change (step Cancel s) with (cancelGeneration s).
    destruct (cancel_eq s Hti) as (Y & ->).
    unfold gen_inv; simpl. split; [discriminate|]. split; [discriminate|].
    split; [lia|]. split; [reflexivity|constructor].
  - change (step (Tick i r) s) with (tick i r s).
    destruct Hti as [_ [Hn | (iv & c & k & Hiv & Hc & Hk & Ha & _)]].
    + rewrite tick_dead; [exact Hg|]. rewrite Hn. reflexivity.
    + destruct (Nat.eq_dec i (iv_id iv)) as [->|Hne].
      * rewrite (tick_live iv r s Hiv (ref_aborted_false s c k Hc Hk Ha)).
        destruct Hg as (H1 & H2 & H3 & H4 & H5). rewrite Hiv in H5.
        inversion H5 as [|? ? (Hrep & Hcp & H90) _]; subst.
        unfold after_tick. rewrite Hcp.
        destruct (100 <=? progress s + 10) eqn:E.
        -- destruct (captured_report iv) as [t|]; [|contradiction].
           unfold gen_inv; simpl. split; [discriminate|]. split; [discriminate|].
           split; [lia|]. split; [|constructor].
           rewrite Z.add_mod, H4 by lia. reflexivity.
        -- apply Z.leb_gt in E.
           unfold gen_inv; simpl. split; [exact H1|]. split; [discriminate|].
           assert (Hm : (progress s + 10) mod 10 = 0)
             by (rewrite Z.add_mod, H4 by lia; reflexivity).
           split; [lia|]. split; [exact Hm|].
           constructor; [|constructor]. simpl. split; [exact Hrep|]. split; [reflexivity|].
           Z.div_mod_to_equations. lia.
      * rewrite tick_dead; [exact Hg|].
        rewrite Hiv. simpl. destruct (Nat.eqb_spec (iv_id iv) i); congruence.
  - apply (gen_inv_same s); [right|..]; reflexivity || exact Hg.
  - apply (gen_inv_same s); [right|..]; reflexivity || exact Hg.
Qed.

Lemma reachable_gen_inv s : reachable s -> gen_inv s.
Proof.
  intros (t0 & evs & Hv & <-).
  assert (H : forall evs s, timer_inv s -> gen_inv s -> valid_trace evs s = true ->
                gen_inv (run evs s)).
  { clear. induction evs as [|ev evs IH]; intros s Hti Hg Hv; simpl in *; auto.
    apply andb_true_iff in Hv. destruct Hv as [Hui Hv].
    apply IH; auto using timer_inv_step, gen_inv_step. }
  apply H; [apply timer_inv_init|apply gen_inv_init|exact Hv].
Qed.

(** Which events recompute the memo. *)

Lemma abort_keeps_memo c s :
  reportHistory (abort c s) = reportHistory s /\ activeReports (abort c s) = activeReports s /\
  memo_time (abort c s) = memo_time s /\ clock (abort c s) = clock s.
Proof.
  unfold abort. destruct (nth_error (controllers s) c) as [k|];
    [|split; [|split; [|split]]; reflexivity].
  destruct (aborted k); [split; [|split; [|split]]; reflexivity|].
  destruct (fold_clear (listeners k)
    (set_controllers (list_set (controllers s) c (mkController true (listeners k))) s))
    as (X & -> & _).
  split; [|split; [|split]]; reflexivity.
Qed.

Lemma generate_keeps_memo s :
  reportHistory (generateReport s) = reportHistory s /\
  activeReports (generateReport s) = activeReports s /\
  memo_time (generateReport s) = memo_time s /\ clock (generateReport s) = clock s.
Proof.
  unfold generateReport, simulateGeneration, addEventListener.
  destruct (abortControllerRef s) as [c|].
  - destruct (abort_keeps_memo c s) as (H1 & H2 & H3 & H4).
    simpl. destruct (nth_error _ _); simpl; rewrite H1, H2, H3, H4;
      (split; [|split; [|split]]; reflexivity).
  - simpl. destruct (nth_error _ _); (split; [|split; [|split]]; reflexivity).
Qed.

Lemma cancel_keeps_memo s :
  reportHistory (cancelGeneration s) = reportHistory s /\
  activeReports (cancelGeneration s) = activeReports s /\
  memo_time (cancelGeneration s) = memo_time s /\ clock (cancelGeneration s) = clock s.
Proof.
  unfold cancelGeneration. destruct (abortControllerRef s) as [c|].
  - destruct (abort_keeps_memo c s) as (H1 & H2 & H3 & H4).
    simpl. rewrite H1, H2, H3, H4. split; [|split; [|split]]; reflexivity.
  - split; [|split; [|split]]; reflexivity.
Qed.

Lemma cons_neq {A} (x : A) l : x :: l <> l.
Proof. intros E. apply (f_equal (@length A)) in E. simpl in E. lia. Qed.

(** An event either leaves the memo, its time and the history alone and
    is not a delete, or it is a delete or changes the history, and then
    the memo is recomputed at the wall clock of the step. *)
Lemma step_memo ev s :
  (reportHistory (step ev s) = reportHistory s /\ activeReports (step ev s) = activeReports s /\
   memo_time (step ev s) = memo_time s /\ (forall rid, ev <> Delete rid)) \/
  (memo_time (step ev s) = clock s /\
   activeReports (step ev s) = active_at (clock s) (reportHistory (step ev s)) /\
   ((exists rid, ev = Delete rid) \/ reportHistory (step ev s) <> reportHistory s)).
Proof.
  destruct ev as [v|f v| | |i r|rid|d].
  - left. split; [reflexivity|]. split; [reflexivity|]. split; [reflexivity|]. discriminate.
  - left. split; [reflexivity|]. split; [reflexivity|]. split; [reflexivity|]. discriminate.
  - left. change (step Generate s) with (generateReport s).
    destruct (generate_keeps_memo s) as (H1 & H2 & H3 & _).
    split; [exact H1|]. split; [exact H2|]. split; [exact H3|]. discriminate.
  - left. change (step Cancel s) with (cancelGeneration s).
    destruct (cancel_keeps_memo s) as (H1 & H2 & H3 & _).
    split; [exact H1|]. split; [exact H2|]. split; [exact H3|]. discriminate.
  - change (step (Tick i r) s) with (tick i r s). unfold tick.
    assert (Hnd : forall rid, Tick i r <> Delete rid) by discriminate.
    destruct (find_interval i (intervals s)) as [iv|]; [|left; auto].
    destruct (ref_aborted s); [left; auto|].
    destruct (100 <=? currentProgress iv + 10); [|left; auto].
    destruct (captured_report iv) as [t|]; [|left; auto].
    right. split; [reflexivity|]. split; [reflexivity|]. right. simpl. apply cons_neq.
  - right. split; [reflexivity|]. split; [reflexivity|]. left. exists rid. reflexivity.
  - left. split; [reflexivity|]. split; [reflexivity|]. split; [reflexivity|]. discriminate.
Qed.

(** Through the UI the memo is never computed later than the wall clock. *)
Lemma memo_le_step ev s :
  ui_allowed s ev = true -> memo_time s <= clock s -> memo_time (step ev s) <= clock (step ev s).
Proof.
  intros Hui H. destruct ev as [v|f v| | |i r|rid|d].
  - exact H.
  - exact H.
  - change (step Generate s) with (generateReport s).
    destruct (generate_keeps_memo s) as (_ & _ & -> & ->). exact H.
  - change (step Cancel s) with (cancelGeneration s).
    destruct (cancel_keeps_memo s) as (_ & _ & -> & ->). exact H.
  - change (step (Tick i r) s) with (tick i r s). unfold tick.
    destruct (find_interval i (intervals s)) as [iv|]; [|exact H].
    destruct (ref_aborted s); [exact H|].
    destruct (100 <=? currentProgress iv + 10); [|exact H].
    destruct (captured_report iv); simpl; lia.
  - simpl. lia.
  - simpl in Hui |- *. apply Z.leb_le in Hui. lia.
Qed.

Lemma memo_le_run evs s :
  valid_trace evs s = true -> memo_time s <= clock s -> memo_time (run evs s) <= clock (run evs s).
Proof.
  revert s; induction evs as [|ev evs IH]; intros s Hv H; simpl in *; auto.
  apply andb_true_iff in Hv. destruct Hv as [Hui Hv].
  apply IH; [exact Hv|apply memo_le_step; assumption].
Qed.

Lemma reachable_memo_le s : reachable s -> memo_time s <= clock s.
Proof.
  intros (t0 & evs & Hv & <-). apply memo_le_run; [exact Hv|simpl; lia].
Qed.

(* ------------------------------------------------------------------ *)
(** * Claims *)

(** C1: calling generateReport while an attempt is in flight aborts the
    controller of that attempt, and afterwards no tick of the superseded
    interval runs whatever happens next: it can neither set 'completed'
    nor append a record. *)
Theorem superseded_attempt_isolated s iv :
  reachable s -> In iv (intervals s) ->
  let s' := step Generate s in
  (exists c k, abortControllerRef s = Some c /\ nth_error (controllers s') c = Some k /\
               aborted k = true) /\
  (forall evs r, step (Tick (iv_id iv) r) (run evs s') = run evs s').
Proof.
  intros Hr Hin. pose proof (reachable_timer_inv s Hr) as Hinv.
  pose proof Hinv as [Hlt [Hn | (iv0 & c & k & Hiv & Hc & Hk & Ha & Hl)]];
    [rewrite Hn in Hin; destruct Hin|].
  rewrite Hiv in Hin. destruct Hin as [<- | []].
  destruct (generate_eq s Hinv) as (Y & Heq & Hlen & Hab). simpl. split.
  - exists c, (mkController true (listeners k)). split; [exact Hc|]. split; [|reflexivity].
    rewrite Heq. unfold started; simpl. rewrite nth_error_app_lt; [apply (Hab c k Hc Hk)|].
    rewrite (Hab c k Hc Hk). discriminate.
  - intros evs r. apply (dead_forever (generateReport s)).
    + exact (timer_inv_generate s Hinv).
    + rewrite Heq. unfold started; simpl. intros iv' [<- | []]. simpl.
      rewrite Hiv in Hlt. inversion Hlt; subst. lia.
    + rewrite Heq. unfold started; simpl. rewrite Hiv in Hlt. inversion Hlt; subst. lia.
Qed.

Lemma superseded_attempt_isolated_witness :
  reachable s_gen3 /\ In iv_gen3 (intervals s_gen3) /\
  let s' := step Generate s_gen3 in
  (exists c k, abortControllerRef s_gen3 = Some c /\ nth_error (controllers s') c = Some k /\
               aborted k = true) /\
  (forall evs r, step (Tick (iv_id iv_gen3) r) (run evs s') = run evs s').
Proof.
  assert (Hr : reachable s_gen3) by (exists 0, trace_gen3; split; [vm_compute; reflexivity | unfold s_gen3; reflexivity]).
  assert (Hi : In iv_gen3 (intervals s_gen3)) by (vm_compute; left; reflexivity).
  split; [exact Hr|]. split; [exact Hi|].
  exact (superseded_attempt_isolated s_gen3 iv_gen3 Hr Hi).
Defined.

(** C2 (as stated, refuted): cancelling after three ticks of the spec's
    example leaves generationStatus [null], not 'cancelled'. *)
Lemma cancel_status_not_cancelled :
  valid_trace (trace_gen3 ++ [Cancel]) (init 0) = true /\
  generationStatus s_gen3 = Some Generating /\ progress s_gen3 = 30 /\
  generationStatus (step Cancel s_gen3) = None /\
  generationStatus (step Cancel s_gen3) <> Some Cancelled.
Proof. vm_compute. repeat split; discriminate. Qed.

(** C2 (amended): cancelling while 'generating' aborts the controller
    held in the ref and clears the ref, sets generationStatus to [null]
    (idle, not 'cancelled'), progress to 0, leaves the history unchanged,
    stops the live interval, and no interval of this or any earlier
    attempt ever ticks again. *)
Theorem cancel_stops_generation s :
  reachable s -> generationStatus s = Some Generating ->
  let s' := step Cancel s in
  generationStatus s' = None /\ progress s' = 0 /\ reportHistory s' = reportHistory s /\
  intervals s' = [] /\
  (forall evs i r, (i < next_interval s)%nat -> step (Tick i r) (run evs s') = run evs s') /\
  abortControllerRef s' = None /\
  (exists c k, abortControllerRef s = Some c /\ aborted k = false /\
     nth_error (controllers s) c = Some k /\
     nth_error (controllers s') c = Some (mkController true (listeners k))).
Proof.
  intros Hr Hgen. pose proof (reachable_timer_inv s Hr) as Hinv.
  pose proof (timer_inv_step Cancel s Hinv) as Hinv'.
  destruct (reachable_gen_inv s Hr) as (_ & Hlive & _).
  assert (Hctl : exists c k, abortControllerRef s = Some c /\ aborted k = false /\
                   nth_error (controllers s) c = Some k).
  { destruct Hinv as [_ [Hn | (iv & c & k & _ & Hc & Hk & Ha & _)]];
      [exfalso; exact (Hlive Hgen Hn)|exists c, k; auto]. }
  destruct Hctl as (c & k & Hc & Ha & Hk).
  destruct (abort_ref_clears s Hinv) as (Y0 & Habort & _ & Hab). rewrite Hc in Habort.
  assert (Href : abortControllerRef (step Cancel s) = None).
  { change (step Cancel s) with (cancelGeneration s). unfold cancelGeneration.
    rewrite Hc. reflexivity. }
  assert (Hctl' : nth_error (controllers (step Cancel s)) c = Some (mkController true (listeners k))).
  { change (step Cancel s) with (cancelGeneration s). unfold cancelGeneration.
    rewrite Hc, Habort. exact (Hab c k Hc Hk). }
  destruct (cancel_eq s Hinv) as (Y & Heq). intros s'.
  change (step Cancel s) with (cancelGeneration s) in s', Hinv', Href, Hctl'.
  subst s'. rewrite Heq in *.
  split; [reflexivity|]. split; [reflexivity|]. split; [reflexivity|]. split; [reflexivity|].
  split; [intros evs i r Hlt; apply (dead_forever _ i Hinv'); [intros iv []|exact Hlt]|].
  split; [reflexivity|].
  exists c, k. split; [exact Hc|]. split; [exact Ha|]. split; [exact Hk|exact Hctl'].
Qed.

Lemma cancel_stops_generation_witness :
  reachable s_gen3 /\ generationStatus s_gen3 = Some Generating /\
  let s' := step Cancel s_gen3 in
  generationStatus s' = None /\ progress s' = 0 /\ reportHistory s' = reportHistory s_gen3 /\
  intervals s' = [] /\
  (forall evs i r, (i < next_interval s_gen3)%nat -> step (Tick i r) (run evs s') = run evs s') /\
  abortControllerRef s' = None /\
  (exists c k, abortControllerRef s_gen3 = Some c /\ aborted k = false /\
     nth_error (controllers s_gen3) c = Some k /\
     nth_error (controllers s') c = Some (mkController true (listeners k))).
Proof.
  assert (Hr : reachable s_gen3) by (exists 0, trace_gen3; split; [vm_compute; reflexivity | unfold s_gen3; reflexivity]).
  assert (Hg : generationStatus s_gen3 = Some Generating) by (vm_compute; reflexivity).
  split; [exact Hr|]. split; [exact Hg|].
  exact (cancel_stops_generation s_gen3 Hr Hg).
Defined.

(** C3: for an attempt that is neither cancelled nor superseded, the k-th
    tick (k <= 9) sets progress to 10k while the state stays 'generating'
    and the history untouched; the 10th tick sets 'completed' and progress
    100, clears the interval and prepends exactly one record; after that
    no tick runs. *)
Theorem generation_runs_to_completion s t :
  reachable s -> selectedReport s = Some t ->
  let i := next_interval s in
  let s0 := step Generate s in
  (forall rs, (length rs <= 9)%nat ->
     let sk := run_ticks i rs s0 in
     progress sk = 10 * Z.of_nat (length rs) /\ generationStatus sk = Some Generating /\
     reportHistory sk = reportHistory s /\ find_interval i (intervals sk) <> None) /\
  (forall rs r, length rs = 9%nat ->
     let sc := run_ticks i (rs ++ [r]) s0 in
     generationStatus sc = Some Completed /\ progress sc = 100 /\
     reportHistory sc = newReport t (filters s) r :: reportHistory s /\
     intervals sc = [] /\
     (forall j r', step (Tick j r') sc = sc)).
Proof.
  intros Hr Hsel. pose proof (reachable_timer_inv s Hr) as Hinv.
  destruct (generate_eq s Hinv) as (Y & Heq & _).
  pose proof (started_attempt s Y t Hsel) as Ha.
  intros i s0. change s0 with (generateReport s). rewrite Heq. clear s0 Heq. split.
  - intros rs Hlen sk.
    pose proof (ticks_mid i t (filters s) rs 0 _ Ha ltac:(lia)) as Heq.
    pose proof (ticks_mid_attempt i t (filters s) rs 0 _ Ha ltac:(lia)) as [Hiv _].
    assert (Hfind : find_interval i (intervals sk) <> None).
    { unfold sk. rewrite Hiv. cbn [find_interval iv_id]. rewrite Nat.eqb_refl. discriminate. }
    unfold sk in *. rewrite Heq in *. clear Heq Hiv.
    destruct rs as [|r rs].
    + split; [reflexivity|]. split; [reflexivity|]. split; [reflexivity|exact Hfind].
    + split; [change (progress (setProgress ?P ?x)) with P; lia|].
      split; [reflexivity|]. split; [reflexivity|exact Hfind].
  - intros rs r Hlen sc. unfold sc.
    rewrite (ticks_complete i t (filters s) rs r 0 _ Ha) by (rewrite Hlen; lia).
    split; [reflexivity|]. split; [reflexivity|]. split; [reflexivity|]. split; [reflexivity|].
    intros j r'. apply tick_dead. reflexivity.
Qed.

Lemma generation_runs_to_completion_witness :
  reachable s_sales_ready /\ selectedReport s_sales_ready = Some sales_report /\
  (let i := next_interval s_sales_ready in
   let s0 := step Generate s_sales_ready in
   (forall rs, (length rs <= 9)%nat ->
      let sk := run_ticks i rs s0 in
      progress sk = 10 * Z.of_nat (length rs) /\ generationStatus sk = Some Generating /\
      reportHistory sk = reportHistory s_sales_ready /\ find_interval i (intervals sk) <> None) /\
   (forall rs r, length rs = 9%nat ->
      let sc := run_ticks i (rs ++ [r]) s0 in
      generationStatus sc = Some Completed /\ progress sc = 100 /\
      reportHistory sc = newReport sales_report (filters s_sales_ready) r :: reportHistory s_sales_ready /\
      intervals sc = [] /\
      (forall j r', step (Tick j r') sc = sc))).
Proof.
  assert (Hr : reachable s_sales_ready)
    by (exists 0, sales_setup; split; [vm_compute; reflexivity | unfold s_sales_ready; reflexivity]).
  assert (Hs : selectedReport s_sales_ready = Some sales_report) by (vm_compute; reflexivity).
  split; [exact Hr|]. split; [exact Hs|].
  exact (generation_runs_to_completion s_sales_ready sales_report Hr Hs).
Defined.


(** C9: editing a filter while 'generating' sets generationStatus to
    [null] but neither aborts the controller nor clears the interval: the
    remaining ticks run, the last one sets 'completed' and prepends exactly
    one record (built from the filters captured when generation started). *)
Theorem filter_edit_keeps_generating s t rs1 rs2 r f v :
  reachable s -> selectedReport s = Some t -> (length rs1 + length rs2 = 9)%nat ->
  let i := next_interval s in
  let s1 := run_ticks i rs1 (step Generate s) in
  let s2 := step (SetFilter f v) s1 in
  let s3 := run_ticks i (rs2 ++ [r]) s2 in
  generationStatus s1 = Some Generating /\
  generationStatus s2 = None /\ intervals s2 = intervals s1 /\
  abortControllerRef s2 = abortControllerRef s1 /\ controllers s2 = controllers s1 /\
  generationStatus s3 = Some Completed /\ progress s3 = 100 /\
  reportHistory s3 = newReport t (filters s) r :: reportHistory s.
Proof.
  intros Hr Hsel Hlen. pose proof (reachable_timer_inv s Hr) as Hinv.
  destruct (generate_eq s Hinv) as (Y & Heq & _).
  pose proof (started_attempt s Y t Hsel) as Ha.
  intros i s1 s2 s3.
  assert (Ha1 : attempt i t (filters s) (0 + 10 * Z.of_nat (length rs1)) s1).
  { unfold s1. change (step Generate s) with (generateReport s). rewrite Heq.
    apply ticks_mid_attempt; [exact Ha|lia]. }
  assert (Hs1 : generationStatus s1 = Some Generating /\ reportHistory s1 = reportHistory s).
  { unfold s1. change (step Generate s) with (generateReport s). rewrite Heq.
    rewrite (ticks_mid i t (filters s) rs1 0 _ Ha) by lia.
    destruct rs1; split; reflexivity. }
  assert (Ha2 : attempt i t (filters s) (0 + 10 * Z.of_nat (length rs1)) s2)
    by (destruct Ha1; split; assumption).
  destruct Hs1 as [Hg1 Hh1].
  split; [exact Hg1|]. split; [reflexivity|]. split; [reflexivity|].
  split; [reflexivity|]. split; [reflexivity|].
  unfold s3. rewrite (ticks_complete i t (filters s) rs2 r _ s2 Ha2) by lia.
  split; [reflexivity|]. split; [reflexivity|].
  change (reportHistory s2) with (reportHistory s1). rewrite Hh1. reflexivity.
Qed.

Lemma filter_edit_keeps_generating_witness :
  reachable s_sales_ready /\ selectedReport s_sales_ready = Some sales_report /\
  let i := next_interval s_sales_ready in
  let s1 := run_ticks i (repeat reads0 3) (step Generate s_sales_ready) in
  let s2 := step (SetFilter "region" "South") s1 in
  let s3 := run_ticks i (repeat reads0 6 ++ [reads0]) s2 in
  generationStatus s1 = Some Generating /\
  generationStatus s2 = None /\ intervals s2 = intervals s1 /\
  abortControllerRef s2 = abortControllerRef s1 /\ controllers s2 = controllers s1 /\
  generationStatus s3 = Some Completed /\ progress s3 = 100 /\
  reportHistory s3 = newReport sales_report (filters s_sales_ready) reads0 :: reportHistory s_sales_ready.
Proof.
  assert (Hr : reachable s_sales_ready)
    by (exists 0, sales_setup; split; [vm_compute; reflexivity | unfold s_sales_ready; reflexivity]).
  assert (Hs : selectedReport s_sales_ready = Some sales_report) by (vm_compute; reflexivity).
  split; [exact Hr|]. split; [exact Hs|].
  exact (filter_edit_keeps_generating s_sales_ready sales_report (repeat reads0 3) (repeat reads0 6)
           reads0 "region" "South" Hr Hs eq_refl).
Defined.

(** C10 (as stated, refuted): with no report selected, the attempt does
    not append a record.  [generateReport] run from the page as mounted
    sets 'generating'; its tenth tick sets 'completed' and then throws at
    [selectedReport.name]: the history stays empty and the ref keeps the
    attempt's controller. *)
Lemma generate_without_report_adds_no_record :
  let s0 := step Generate (init 0) in
  let sc := run_ticks (next_interval (init 0)) (repeat reads0 10) s0 in
  reachable (init 0) /\ selectedReport (init 0) = None /\
  generationStatus s0 = Some Generating /\
  generationStatus sc = Some Completed /\ reportHistory sc = [] /\
  abortControllerRef sc = Some 0%nat.
Proof.
  split; [exists 0, []; split; reflexivity|].
  vm_compute. repeat split.
Qed.

(** C10: [generateReport] itself checks neither the filters nor the
    selected report.  From any reachable state it sets 'generating' with
    progress 0, and its tenth tick sets 'completed' with progress 100 and
    stops the interval.  With a report selected, that tick prepends a
    record carrying exactly the filters at the call, whatever they are
    (possibly incomplete or empty), and clears the ref.  With none, it
    throws after setting 'completed': no record, and the ref is not
    cleared. *)
Theorem generate_has_no_precondition_check s rs r :
  reachable s -> length rs = 9%nat ->
  let s0 := step Generate s in
  let sc := run_ticks (next_interval s) (rs ++ [r]) s0 in
  generationStatus s0 = Some Generating /\ progress s0 = 0 /\
  generationStatus sc = Some Completed /\ progress sc = 100 /\ intervals sc = [] /\
  reportHistory sc =
    match selectedReport s with
    | Some t => newReport t (filters s) r :: reportHistory s
    | None => reportHistory s
    end /\
  abortControllerRef sc =
    match selectedReport s with
    | Some _ => None
    | None => abortControllerRef s0
    end.
Proof.
  intros Hr Hlen. pose proof (reachable_timer_inv s Hr) as Hinv.
  destruct (generate_eq s Hinv) as (Y & Heq & _).
  intros s0 sc. unfold sc. clear sc. change s0 with (generateReport s). rewrite Heq. clear s0.
  destruct (selectedReport s) as [t|] eqn:Hsel.
  - pose proof (started_attempt s Y t Hsel) as Ha.
    rewrite (ticks_complete (next_interval s) t (filters s) rs r 0 _ Ha) by (rewrite Hlen; lia).
    repeat split; reflexivity.
  - destruct (started_none s Y Hsel) as [Hiv Hab].
    rewrite (ticks_none_complete (next_interval s) (filters s) rs r 0 _ Hiv Hab)
      by (rewrite Hlen; lia).
    repeat split; reflexivity.
Qed.

Lemma generate_has_no_precondition_check_witness :
  reachable s_sales_nofilters /\ filters s_sales_nofilters = [] /\
  generate_enabled s_sales_nofilters = false /\
  (let s0 := step Generate s_sales_nofilters in
   let sc := run_ticks (next_interval s_sales_nofilters) (repeat reads0 9 ++ [reads0]) s0 in
   generationStatus s0 = Some Generating /\ progress s0 = 0 /\
   generationStatus sc = Some Completed /\ progress sc = 100 /\ intervals sc = [] /\
   reportHistory sc =
     match selectedReport s_sales_nofilters with
     | Some t => newReport t (filters s_sales_nofilters) reads0 :: reportHistory s_sales_nofilters
     | None => reportHistory s_sales_nofilters
     end /\
   abortControllerRef sc =
     match selectedReport s_sales_nofilters with
     | Some _ => None
     | None => abortControllerRef s0
     end) /\
  reachable (init 0) /\
  (let s0 := step Generate (init 0) in
   let sc := run_ticks (next_interval (init 0)) (repeat reads0 9 ++ [reads0]) s0 in
   generationStatus s0 = Some Generating /\ progress s0 = 0 /\
   generationStatus sc = Some Completed /\ progress sc = 100 /\ intervals sc = [] /\
   reportHistory sc =
     match selectedReport (init 0) with
     | Some t => newReport t (filters (init 0)) reads0 :: reportHistory (init 0)
     | None => reportHistory (init 0)
     end /\
   abortControllerRef sc =
     match selectedReport (init 0) with
     | Some _ => None
     | None => abortControllerRef s0
     end).
Proof.
  assert (Hr : reachable s_sales_nofilters)
    by (exists 0, [SelectReport "sales"]; split;
        [vm_compute; reflexivity | unfold s_sales_nofilters; reflexivity]).
  assert (Hi : reachable (init 0)) by (exists 0, []; split; reflexivity).
  split; [exact Hr|]. split; [vm_compute; reflexivity|]. split; [vm_compute; reflexivity|].
  split; [exact (generate_has_no_precondition_check s_sales_nofilters (repeat reads0 9) reads0 Hr eq_refl)|].
  split; [exact Hi|].
  exact (generate_has_no_precondition_check (init 0) (repeat reads0 9) reads0 Hi eq_refl).
Defined.

(** C4 (as stated, refuted): the record's filters are not those at
    completion time.  In the spec's example, "region" is changed to
    "South" after generation started; the record still says "North". *)
Lemma record_filters_not_completion_snapshot :
  valid_trace trace_edit_midway (init 0) = true /\
  let s := run trace_edit_midway (init 0) in
  generationStatus s = Some Completed /\
  map rfilters (reportHistory s) = [filters s_sales_ready] /\
  map rfilters (reportHistory s) <> [filters s].
Proof. vm_compute. split; [reflexivity|]. split; [reflexivity|]. split; [reflexivity|]. discriminate. Qed.

(** C4 (amended): the tick that completes an attempt started from [s]
    with report [t] prepends [newReport t (filters s) r]: the template's
    name, the filters captured when generateReport was called, [id] and
    [generatedAt] from clock reads at completion, [expirationDate] = a
    later clock read + 28 days (so at least [generatedAt] + 28 days when
    the clock does not go back), a download link built from a clock read;
    the record then stays in the history, unchanged, until a delete
    names its id. *)
Theorem completion_record s t evs iv r :
  reachable s -> selectedReport s = Some t ->
  let s1 := run evs (step Generate s) in
  In iv (intervals s1) -> iv_id iv = next_interval s -> 100 <= currentProgress iv + 10 ->
  let s2 := step (Tick (next_interval s) r) s1 in
  let rec := newReport t (filters s) r in
  reportHistory s2 = rec :: reportHistory s1 /\
  type rec = name t /\ rfilters rec = filters s /\ id rec = t_id r /\
  generatedAt rec = t_gen r /\ expirationDate rec = t_exp r + RETENTION_MS /\
  downloadLink rec = ("/api/download-report-" ++ z_to_string (t_link r))%string /\
  (t_gen r <= t_exp r -> generatedAt rec + RETENTION_MS <= expirationDate rec) /\
  (forall evs', ~ In (Delete (id rec)) evs' -> In rec (reportHistory (run evs' s2))).
Proof.
  intros Hr Hsel s1 Hin Hid Hcp s2 rec.
  pose proof (reachable_timer_inv s Hr) as Hinv.
  destruct (generate_eq s Hinv) as (Y & Heq & _).
  assert (Hinv0 : timer_inv (started s Y)) by (rewrite <- Heq; apply timer_inv_generate, Hinv).
  assert (Hs1 : s1 = run evs (started s Y))
    by (unfold s1; change (step Generate s) with (generateReport s); rewrite Heq; reflexivity).
  pose proof (timer_inv_run evs _ Hinv0) as Hinv1. rewrite <- Hs1 in Hinv1.
  (* the closure of the live interval is the one generateReport captured *)
  rewrite Hs1 in Hin.
  destruct (run_intervals evs (started s Y) iv Hinv0 Hin ltac:(unfold started; simpl; lia))
    as (iv0 & Hin0 & _ & Hrep & Hfil).
  unfold started in Hin0; simpl in Hin0. destruct Hin0 as [<- | []]. simpl in Hrep, Hfil.
  rewrite <- Hs1 in Hin.
  destruct Hinv1 as [_ [Hn | (iv1 & c & k & Hiv & Hc & Hk & Ha & _)]];
    [rewrite Hn in Hin; destruct Hin|].
  rewrite Hiv in Hin. destruct Hin as [-> | []].
  assert (Hrep2 : reportHistory s2 = rec :: reportHistory s1).
  { unfold s2. simpl. rewrite <- Hid.
    rewrite (tick_live iv r s1 Hiv (ref_aborted_false s1 c k Hc Hk Ha)).
    unfold after_tick. destruct (Z.leb_spec 100 (currentProgress iv + 10)); [|lia].
    rewrite <- Hrep, Hsel, <- Hfil. reflexivity. }
  split; [exact Hrep2|].
  split; [reflexivity|]. split; [reflexivity|]. split; [reflexivity|].
  split; [reflexivity|]. split; [reflexivity|]. split; [reflexivity|].
  split; [unfold rec; simpl; lia|].
  intros evs' Hno. apply history_keeps_run; [rewrite Hrep2; left; reflexivity|exact Hno].
Qed.

Lemma completion_record_witness :
  reachable s_sales_ready /\ selectedReport s_sales_ready = Some sales_report /\
  In iv_at90 (intervals (run (repeat (Tick 0 reads0) 9) (step Generate s_sales_ready))) /\ iv_id iv_at90 = next_interval s_sales_ready /\
  100 <= currentProgress iv_at90 + 10 /\
  let r := mkReads 5000 5000 5001 5001 in
  let s2 := step (Tick (next_interval s_sales_ready) r)
              (run (repeat (Tick 0 reads0) 9) (step Generate s_sales_ready)) in
  let rec := newReport sales_report (filters s_sales_ready) r in
  reportHistory s2 =
    rec :: reportHistory (run (repeat (Tick 0 reads0) 9) (step Generate s_sales_ready)) /\
  type rec = name sales_report /\ rfilters rec = filters s_sales_ready /\ id rec = t_id r /\
  generatedAt rec = t_gen r /\ expirationDate rec = t_exp r + RETENTION_MS /\
  downloadLink rec = ("/api/download-report-" ++ z_to_string (t_link r))%string /\
  (t_gen r <= t_exp r -> generatedAt rec + RETENTION_MS <= expirationDate rec) /\
  (forall evs', ~ In (Delete (id rec)) evs' -> In rec (reportHistory (run evs' s2))).
Proof.
  assert (Hr : reachable s_sales_ready)
    by (exists 0, sales_setup; split; [vm_compute; reflexivity | unfold s_sales_ready; reflexivity]).
  assert (Hs : selectedReport s_sales_ready = Some sales_report) by (vm_compute; reflexivity).
  assert (Hi : In iv_at90 (intervals (run (repeat (Tick 0 reads0) 9) (step Generate s_sales_ready)))) by (vm_compute; left; reflexivity).
  assert (Hd : iv_id iv_at90 = next_interval s_sales_ready) by (vm_compute; reflexivity).
  assert (Hp : 100 <= currentProgress iv_at90 + 10) by (vm_compute; discriminate).
  split; [exact Hr|]. split; [exact Hs|]. split; [exact Hi|]. split; [exact Hd|].
  split; [exact Hp|].
  exact (completion_record s_sales_ready sales_report (repeat (Tick 0 reads0) 9) iv_at90
           (mkReads 5000 5000 5001 5001) Hr Hs Hi Hd Hp).
Defined.

(** C5: in every state the page can reach, the Generate button is
    enabled exactly when a report is selected and the filters hold one
    entry for each of its filters and no other; otherwise it is disabled
    (a boolean, no error). *)
Theorem generate_button_guard s :
  reachable s ->
  (generate_enabled s = true <->
   exists t, selectedReport s = Some t /\ one_entry_per_filter t (filters s)).
Proof.
  intros Hr. pose proof (reachable_filters_inv s Hr) as Hf. unfold filters_inv in Hf.
  unfold generate_enabled. destruct (selectedReport s) as [t|].
  - destruct Hf as (Hid & Hnd & Hinc). rewrite Nat.eqb_eq. split.
    + intros Hlen. exists t. split; [reflexivity|].
      assert (Hincl : incl (map fid (tfilters t)) (obj_keys (filters s))).
      { apply NoDup_length_incl; [exact Hnd| rewrite length_map; lia | exact Hinc]. }
      split.
      * intros f Hfin. apply (proj1 (NoDup_count_occ' string_dec _) Hnd).
        apply Hincl, in_map, Hfin.
      * exact Hinc.
    + intros (t' & Ht & Hc & Hk). injection Ht as <-.
      assert (Hincl : incl (map fid (tfilters t)) (obj_keys (filters s))).
      { intros x Hx. apply in_map_iff in Hx. destruct Hx as (f & <- & Hfin).
        apply (count_occ_In string_dec). rewrite (Hc f Hfin). lia. }
      apply Nat.le_antisymm.
      * rewrite <- (length_map fid (tfilters t)). apply NoDup_incl_length; assumption.
      * rewrite <- (length_map fid (tfilters t)). apply NoDup_incl_length; assumption.
  - split; [discriminate|]. intros (t & Ht & _). discriminate.
Qed.

Lemma generate_button_guard_witness :
  reachable s_sales_ready /\
  (generate_enabled s_sales_ready = true <->
   exists t, selectedReport s_sales_ready = Some t /\ one_entry_per_filter t (filters s_sales_ready)).
Proof.
  assert (Hr : reachable s_sales_ready)
    by (exists 0, sales_setup; split; [vm_compute; reflexivity | unfold s_sales_ready; reflexivity]).
  split; [exact Hr|]. exact (generate_button_guard s_sales_ready Hr).
Defined.

(** C6: selecting any report type of the catalog makes it the selected
    report, empties the filters and sets generationStatus to [null]
    (idle). *)
Theorem select_report_resets s v t :
  In (v, t) REPORT_TYPES ->
  let s' := step (SelectReport v) s in
  selectedReport s' = Some t /\ filters s' = [] /\ generationStatus s' = None.
Proof.
  intros H s'. unfold REPORT_TYPES in H.
  destruct H as [H | [H | [H | []]]]; injection H as <- <-;
    (split; [reflexivity| split; reflexivity]).
Qed.

Lemma select_report_resets_witness :
  In ("inventory"%string, inventory_report) REPORT_TYPES /\
  let s' := step (SelectReport "inventory") s_gen3 in
  selectedReport s' = Some inventory_report /\ filters s' = [] /\ generationStatus s' = None.
Proof.
  assert (H : In ("inventory"%string, inventory_report) REPORT_TYPES)
    by (right; left; reflexivity).
  split; [exact H|]. exact (select_report_resets s_gen3 "inventory" inventory_report H).
Defined.

(** C7 (as stated, refuted): [activeReports] is a useMemo keyed on
    [reportHistory] only; once time passes the expiration of a record
    and the history does not change, the record is still listed. *)
Lemma active_reports_stale_after_expiry :
  valid_trace trace_expired (init 0) = true /\
  let s := run trace_expired (init 0) in
  length (activeReports s) = 1%nat /\ active_at (clock s) (reportHistory s) = [] /\
  activeReports s <> active_at (clock s) (reportHistory s).
Proof. vm_compute. split; [reflexivity|]. split; [reflexivity|]. split; [reflexivity|]. discriminate. Qed.

(** C7 (amended): [activeReports] is a useMemo keyed on [reportHistory]:
    it is the subsequence, in history order, of the records whose
    expirationDate is strictly after [memo_time].  Every delete and every
    event that changes the history (a completing tick) is followed by a
    render that recomputes it with the wall clock of that step; every
    other event, the passing of time included, leaves it and [memo_time]
    as they are.  Through the UI, [memo_time] is never later than the
    clock. *)
Theorem active_reports_memo t0 evs :
  let s := run evs (init t0) in
  activeReports s = active_at (memo_time s) (reportHistory s) /\
  (forall r, In r (activeReports s) <-> In r (reportHistory s) /\ memo_time s < expirationDate r) /\
  (forall ev, ((exists rid, ev = Delete rid) \/ reportHistory (step ev s) <> reportHistory s) ->
     memo_time (step ev s) = clock s /\
     activeReports (step ev s) = active_at (clock s) (reportHistory (step ev s))) /\
  (forall ev, (forall rid, ev <> Delete rid) -> reportHistory (step ev s) = reportHistory s ->
     activeReports (step ev s) = activeReports s /\ memo_time (step ev s) = memo_time s) /\
  (forall d, clock (step (Wait d) s) = clock s + d /\
     activeReports (step (Wait d) s) = activeReports s) /\
  (valid_trace evs (init t0) = true -> memo_time s <= clock s).
Proof.
  intros s. assert (Hm : memo_inv s) by (apply memo_inv_run; reflexivity).
  split; [exact Hm|]. split.
  { intros r. rewrite Hm. unfold active_at. rewrite filter_In, Z.ltb_lt. reflexivity. }
  split.
  { intros ev Hch. destruct (step_memo ev s) as [(H1 & _ & _ & Hnd) | (H1 & H2 & _)].
    - exfalso. destruct Hch as [(rid & ->) | Hch]; [exact (Hnd rid eq_refl)|exact (Hch H1)].
    - split; assumption. }
  split.
  { intros ev Hnd Hh. destruct (step_memo ev s) as [(_ & H2 & H3 & _) | (_ & _ & Hch)].
    - split; assumption.
    - exfalso. destruct Hch as [(rid & ->) | Hch]; [exact (Hnd rid eq_refl)|exact (Hch Hh)]. }
  split; [intros d; split; reflexivity|].
  intros Hv. apply memo_le_run; [exact Hv|simpl; lia].
Qed.

(** C8: with ids unique in the history, deleting [rid] removes exactly
    the record with that id and keeps the others in order, does nothing
    when no record has it, and shortens the history by at most one. *)
Theorem delete_report_exact s rid :
  NoDup (map id (reportHistory s)) ->
  let h := reportHistory s in
  let h' := reportHistory (step (Delete rid) s) in
  (~ In rid (map id h) -> h' = h) /\
  (forall l1 r l2, h = l1 ++ r :: l2 -> id r = rid -> h' = l1 ++ l2) /\
  (forall r, In r h' <-> In r h /\ id r <> rid) /\
  (length h <= S (length h'))%nat.
Proof.
  intros Hnd h h'.
  assert (Hkeep : forall l, (forall x, In x l -> id x <> rid) ->
            filter (fun report => negb (Z.eqb (id report) rid)) l = l).
  { induction l as [|x l IH]; intros Hl; simpl; auto.
    destruct (Z.eqb_spec (id x) rid) as [E|E]; [exfalso; apply (Hl x); [left; reflexivity | exact E]|].
    simpl. f_equal. apply IH. intros y Hy; apply Hl; right; exact Hy. }
  assert (Hsplit : forall l1 r l2, h = l1 ++ r :: l2 -> id r = rid -> h' = l1 ++ l2).
  { intros l1 r l2 Hh Hr. unfold h'. simpl. unfold h in Hh. rewrite Hh.
    rewrite Hh, map_app in Hnd. simpl in Hnd. apply NoDup_remove_2 in Hnd.
    rewrite filter_app. simpl. rewrite Hr, Z.eqb_refl. simpl.
    rewrite !Hkeep; auto.
    - intros x Hx E. apply Hnd. rewrite Hr, <- E. apply in_or_app. right. apply in_map, Hx.
    - intros x Hx E. apply Hnd. rewrite Hr, <- E. apply in_or_app. left. apply in_map, Hx. }
  split; [|split; [exact Hsplit|split]].
  - intros Hno. unfold h', h. simpl. apply Hkeep. intros x Hx E. apply Hno.
    rewrite <- E. apply in_map, Hx.
  - intros r. unfold h'. simpl. rewrite filter_In, negb_true_iff, Z.eqb_neq. reflexivity.
  - destruct (in_dec Z.eq_dec rid (map id h)) as [Hin|Hno].
    + apply in_map_iff in Hin. destruct Hin as (r & Hr & Hin).
      apply in_split in Hin. destruct Hin as (l1 & l2 & Hh).
      rewrite (Hsplit l1 r l2 Hh Hr), Hh, !length_app. simpl. lia.
    + assert (h' = h) as ->; [|lia].
      unfold h', h. simpl. apply Hkeep. intros x Hx E. apply Hno.
      rewrite <- E. apply in_map, Hx.
Qed.

Lemma delete_report_exact_witness :
  NoDup (map id (reportHistory s_hub)) /\
  (let h := reportHistory s_hub in
   let h' := reportHistory (step (Delete 2) s_hub) in
   (~ In 2 (map id h) -> h' = h) /\
   (forall l1 r l2, h = l1 ++ r :: l2 -> id r = 2 -> h' = l1 ++ l2) /\
   (forall r, In r h' <-> In r h /\ id r <> 2) /\
   (length h <= S (length h'))%nat) /\
  (let h := reportHistory s_hub in
   let h' := reportHistory (step (Delete 99) s_hub) in
   (~ In 99 (map id h) -> h' = h) /\
   (forall l1 r l2, h = l1 ++ r :: l2 -> id r = 99 -> h' = l1 ++ l2) /\
   (forall r, In r h' <-> In r h /\ id r <> 99) /\
   (length h <= S (length h'))%nat) /\
  map id (reportHistory s_hub) = [3; 2; 1] /\
  map id (reportHistory (step (Delete 2) s_hub)) = [3; 1] /\
  reportHistory (step (Delete 99) s_hub) = reportHistory s_hub.
Proof.
  assert (H : NoDup (map id (reportHistory s_hub))).
  { vm_compute. constructor; [intros [E|[E|[]]]; discriminate E|].
    constructor; [intros [E|[]]; discriminate E|]. constructor; [intros []|constructor]. }
  split; [exact H|]. split; [exact (delete_report_exact s_hub 2 H)|].
  split; [exact (delete_report_exact s_hub 99 H)|].
  vm_compute. split; [reflexivity|]. split; reflexivity.
Defined.

(* ------------------------------------------------------------------ *)
(** * Further properties of the page *)

(** In every state the page can reach, generationStatus is never
    'cancelled', and while a timer is live the controller in the ref is
    not aborted, so the tick's 'cancelled' branch never runs. *)
Theorem status_never_cancelled s :
  reachable s ->
  generationStatus s <> Some Cancelled /\
  (forall i r, find_interval i (intervals s) <> None ->
     generationStatus (step (Tick i r) s) <> Some Cancelled /\ ref_aborted s = false).
Proof.
  intros Hr. pose proof (reachable_gen_inv s Hr) as Hg.
  pose proof (reachable_timer_inv s Hr) as Hti.
  assert (Hab : intervals s <> [] -> ref_aborted s = false).
  { intros Hne. destruct Hti as [_ [Hn | (iv & c & k & _ & Hc & Hk & Ha & _)]];
      [contradiction|exact (ref_aborted_false s c k Hc Hk Ha)]. }
  split; [exact (proj1 Hg)|]. intros i r Hf.
  assert (Hne : intervals s <> []) by (intros E; rewrite E in Hf; apply Hf; reflexivity).
  split; [|exact (Hab Hne)].
  apply (gen_inv_step (Tick i r) s Hti Hg). simpl.
  destruct (find_interval i (intervals s)); [reflexivity|contradiction].
Qed.

Lemma status_never_cancelled_witness :
  reachable s_gen3 /\
  generationStatus s_gen3 <> Some Cancelled /\
  (forall i r, find_interval i (intervals s_gen3) <> None ->
     generationStatus (step (Tick i r) s_gen3) <> Some Cancelled /\ ref_aborted s_gen3 = false).
Proof.
  assert (Hr : reachable s_gen3)
    by (exists 0, trace_gen3; split; [vm_compute; reflexivity | unfold s_gen3; reflexivity]).
  split; [exact Hr|]. exact (status_never_cancelled s_gen3 Hr).
Defined.

(** In every state the page can reach, progress is a multiple of 10
    between 0 and 100, and a live timer's [currentProgress] is the
    displayed progress, at most 90. *)
Theorem progress_bounded s :
  reachable s ->
  0 <= progress s <= 100 /\ progress s mod 10 = 0 /\
  (forall iv, In iv (intervals s) -> currentProgress iv = progress s /\ progress s <= 90).
Proof.
  intros Hr. destruct (reachable_gen_inv s Hr) as (_ & _ & H3 & H4 & H5).
  split; [exact H3|]. split; [exact H4|].
  intros iv Hin. rewrite Forall_forall in H5. destruct (H5 iv Hin) as (_ & Hc & H90).
  split; assumption.
Qed.

Lemma progress_bounded_witness :
  reachable s_gen3 /\
  0 <= progress s_gen3 <= 100 /\ progress s_gen3 mod 10 = 0 /\
  (forall iv, In iv (intervals s_gen3) -> currentProgress iv = progress s_gen3 /\ progress s_gen3 <= 90).
Proof.
  assert (Hr : reachable s_gen3)
    by (exists 0, trace_gen3; split; [vm_compute; reflexivity | unfold s_gen3; reflexivity]).
  split; [exact Hr|]. exact (progress_bounded s_gen3 Hr).
Defined.

(** In every state the page can reach, a live timer's closure holds a
    selected report, so the completing tick never throws at
    [selectedReport.name]: it prepends the record and clears the ref. *)
Theorem completion_never_throws s iv r :
  reachable s -> In iv (intervals s) ->
  exists t, captured_report iv = Some t /\
   (100 <= currentProgress iv + 10 ->
    let s' := step (Tick (iv_id iv) r) s in
    reportHistory s' = newReport t (captured_filters iv) r :: reportHistory s /\
    generationStatus s' = Some Completed /\ abortControllerRef s' = None /\ intervals s' = []).
Proof.
  intros Hr Hin. destruct (reachable_gen_inv s Hr) as (_ & _ & _ & _ & H5).
  rewrite Forall_forall in H5. destruct (H5 iv Hin) as (Hrep & _ & _).
  destruct (captured_report iv) as [t|] eqn:Ht; [|contradiction].
  exists t. split; [reflexivity|]. intros Hcp s'.
  destruct (reachable_timer_inv s Hr) as [_ [Hn | (iv1 & c & k & Hiv & Hc & Hk & Ha & _)]].
  - rewrite Hn in Hin. destruct Hin.
  - rewrite Hiv in Hin. destruct Hin as [<- | []].
    unfold s'. change (step (Tick (iv_id iv1) r) s) with (tick (iv_id iv1) r s).
    rewrite (tick_live iv1 r s Hiv (ref_aborted_false s c k Hc Hk Ha)).
    unfold after_tick. apply Z.leb_le in Hcp. rewrite Hcp, Ht.
    split; [reflexivity|]. split; [reflexivity|]. split; reflexivity.
Qed.

Lemma completion_never_throws_witness :
  reachable s_at90 /\ In iv_at90 (intervals s_at90) /\
  (exists t, captured_report iv_at90 = Some t /\
   (100 <= currentProgress iv_at90 + 10 ->
    let s' := step (Tick (iv_id iv_at90) reads0) s_at90 in
    reportHistory s' = newReport t (captured_filters iv_at90) reads0 :: reportHistory s_at90 /\
    generationStatus s' = Some Completed /\ abortControllerRef s' = None /\ intervals s' = [])) /\
  100 <= currentProgress iv_at90 + 10.
Proof.
  assert (Hr : reachable s_at90).
  { exists 0, (sales_setup ++ [Generate] ++ repeat (Tick 0 reads0) 9). split.
    - vm_compute. reflexivity.
    - rewrite !run_app. unfold s_at90, s_sales_ready. reflexivity. }
  assert (Hi : In iv_at90 (intervals s_at90)) by (vm_compute; left; reflexivity).
  split; [exact Hr|]. split; [exact Hi|].
  split; [exact (completion_never_throws s_at90 iv_at90 reads0 Hr Hi)|].
  vm_compute. discriminate.
Defined.

(** In every state the page can reach, the status block is either absent
    or one of two layouts: "Generating Report..." with the Cancel button
    and the progress bar, while a timer is live on a controller that is
    not aborted; or "Report Generation Complete" with the completion
    message and neither button nor bar.  The 'cancelled' layout (the
    "Complete" heading without the message) never shows. *)
Theorem status_panel_consistent s :
  reachable s ->
  status_panel s = None \/
  status_panel s = Some (mkPanel "Generating Report..." true (Some (progress s)) false) /\
    (exists iv, intervals s = [iv] /\ ref_aborted s = false) \/
  status_panel s = Some (mkPanel "Report Generation Complete" false None true).
Proof.
  intros Hr. destruct (reachable_gen_inv s Hr) as (H1 & H2 & _).
  pose proof (reachable_timer_inv s Hr) as Hti.
  unfold status_panel. destruct (generationStatus s) as [[| |]|] eqn:E.
  - right; left. split; [reflexivity|].
    destruct Hti as [_ [Hn | (iv & c & k & Hiv & Hc & Hk & Ha & _)]].
    + exfalso. exact (H2 eq_refl Hn).
    + exists iv. split; [exact Hiv|exact (ref_aborted_false s c k Hc Hk Ha)].
  - right; right. reflexivity.
  - contradiction.
  - left. reflexivity.
Qed.

Lemma status_panel_consistent_witness :
  reachable s_gen3 /\
  (status_panel s_gen3 = None \/
   status_panel s_gen3 = Some (mkPanel "Generating Report..." true (Some (progress s_gen3)) false) /\
     (exists iv, intervals s_gen3 = [iv] /\ ref_aborted s_gen3 = false) \/
   status_panel s_gen3 = Some (mkPanel "Report Generation Complete" false None true)).
Proof.
  assert (Hr : reachable s_gen3)
    by (exists 0, trace_gen3; split; [vm_compute; reflexivity | unfold s_gen3; reflexivity]).
  split; [exact Hr|]. exact (status_panel_consistent s_gen3 Hr).
Defined.

(** Unmounting the page (the [useEffect] cleanup) aborts the controller
    in the ref and so clears the live timer: no tick has any effect
    afterwards, and the history is kept. *)
Theorem unmount_stops_timers s :
  reachable s ->
  let s' := unmount s in
  intervals s' = [] /\ reportHistory s' = reportHistory s /\
  (forall c k, abortControllerRef s = Some c -> nth_error (controllers s) c = Some k ->
     exists k', nth_error (controllers s') c = Some k' /\ aborted k' = true) /\
  (forall i r, step (Tick i r) s' = s').
Proof.
  intros Hr s'. pose proof (reachable_timer_inv s Hr) as Hti.
  destruct (abort_ref_clears s Hti) as (Y & Heq & _ & Hab).
  assert (Hs' : s' = set_intervals [] (set_controllers Y s)) by exact Heq.
  rewrite Hs'. split; [reflexivity|]. split; [reflexivity|]. split.
  - intros c k Hc Hk. exists (mkController true (listeners k)).
    split; [exact (Hab c k Hc Hk)|reflexivity].
  - intros i r. apply tick_dead. reflexivity.
Qed.

Lemma unmount_stops_timers_witness :
  reachable s_gen3 /\
  let s' := unmount s_gen3 in
  intervals s' = [] /\ reportHistory s' = reportHistory s_gen3 /\
  (forall c k, abortControllerRef s_gen3 = Some c -> nth_error (controllers s_gen3) c = Some k ->
     exists k', nth_error (controllers s') c = Some k' /\ aborted k' = true) /\
  (forall i r, step (Tick i r) s' = s').
Proof.
  assert (Hr : reachable s_gen3)
    by (exists 0, trace_gen3; split; [vm_compute; reflexivity | unfold s_gen3; reflexivity]).
  split; [exact Hr|]. exact (unmount_stops_timers s_gen3 Hr).
Defined.

(** Filters as a JS object. *)

Lemma obj_get_set_eq o k v : obj_get (obj_set o k v) k = Some v.
Proof.
  induction o as [|[k' v'] o IH]; simpl.
  - rewrite String.eqb_refl. reflexivity.
  - destruct (String.eqb_spec k' k) as [->|Hne]; simpl.
    + rewrite String.eqb_refl. reflexivity.
    + apply String.eqb_neq in Hne. rewrite Hne. exact IH.
Qed.

Lemma obj_get_set_neq o k v k' :
  k' <> k -> obj_get (obj_set o k v) k' = obj_get o k'.
Proof.
  intros Hne. induction o as [|[k0 v0] o IH]; simpl.
  - apply String.eqb_neq in Hne. rewrite String.eqb_sym, Hne. reflexivity.
  - destruct (String.eqb_spec k0 k) as [->|Hk]; simpl.
    + assert (E : String.eqb k k' = false) by (apply String.eqb_neq; congruence).
      rewrite E. reflexivity.
    + destruct (String.eqb k0 k'); [reflexivity|exact IH].
Qed.

Lemma obj_keys_set_old o k v :
  In k (obj_keys o) -> obj_keys (obj_set o k v) = obj_keys o.
Proof.
  induction o as [|[k0 v0] o IH]; simpl; [intros []|intros Hin].
  destruct (String.eqb_spec k0 k) as [->|Hk]; simpl; [reflexivity|].
  destruct Hin as [E|Hin]; [contradiction|]. rewrite (IH Hin). reflexivity.
Qed.

Lemma obj_set_new o k v :
  ~ In k (obj_keys o) -> obj_set o k v = o ++ [(k, v)].
Proof.
  induction o as [|[k0 v0] o IH]; simpl; intros Hno; [reflexivity|].
  destruct (String.eqb_spec k0 k) as [->|Hk]; [exfalso; apply Hno; left; reflexivity|].
  rewrite IH; [reflexivity|]. intros Hin; apply Hno; right; exact Hin.
Qed.

(** After [updateFilter(k, v)], reading [filters[k]] gives [v], every
    other key reads as before; an existing key keeps its place among the
    keys (the count the Generate guard compares is unchanged), a new key
    is added last. *)
Theorem update_filter_get_set s k v :
  let F := filters (updateFilter k v s) in
  obj_get F k = Some v /\
  (forall k', k' <> k -> obj_get F k' = obj_get (filters s) k') /\
  (In k (obj_keys (filters s)) -> obj_keys F = obj_keys (filters s)) /\
  (~ In k (obj_keys (filters s)) -> F = filters s ++ [(k, v)]).
Proof.
  intros F. unfold F, updateFilter, set_filters; simpl.
  split; [apply obj_get_set_eq|]. split; [intros k' Hne; apply obj_get_set_neq, Hne|].
  split; [apply obj_keys_set_old|apply obj_set_new].
Qed.

Lemma str_app_assoc (a b c : string) : ((a ++ b) ++ c = a ++ (b ++ c))%string.
Proof. induction a as [|x a IH]; simpl; [reflexivity|rewrite IH; reflexivity]. Qed.

Lemma join_app sep l1 l2 :
  l1 <> [] -> l2 <> [] -> join sep (l1 ++ l2) = (join sep l1 ++ sep ++ join sep l2)%string.
Proof.
  intros H1 H2. induction l1 as [|x l1 IH]; [contradiction|].
  destruct l1 as [|y l1].
  - simpl. destruct l2; [contradiction|reflexivity].
  - change ((x :: y :: l1) ++ l2) with (x :: (y :: l1 ++ l2)).
    change (join sep (x :: (y :: l1 ++ l2))) with (x ++ sep ++ join sep (y :: l1 ++ l2))%string.
    change (join sep (x :: y :: l1)) with (x ++ sep ++ join sep (y :: l1))%string.
    change (y :: l1 ++ l2) with ((y :: l1) ++ l2).
    rewrite IH by discriminate. rewrite !str_app_assoc. reflexivity.
Qed.

Lemma entry_nonempty k v : ((k ++ ": " ++ v) <> "")%string.
Proof. destruct k; discriminate. Qed.

Lemma join_entry_empty x l sep : x <> ""%string -> join sep (x :: l) <> ""%string.
Proof.
  intros Hx. destruct l as [|y l]; simpl; [exact Hx|].
  destruct x; [contradiction|discriminate].
Qed.

(** [formatFilterDisplay] is empty exactly for an object with no entry;
    the display of two non-empty objects laid end to end is their
    displays joined by " | "; so setting a new filter on a non-empty
    object adds " | key: value" at the end of the display. *)
Theorem format_filter_display o1 o2 k v :
  (formatFilterDisplay o1 = ""%string <-> o1 = []) /\
  (o1 <> [] -> o2 <> [] ->
     formatFilterDisplay (o1 ++ o2) = (formatFilterDisplay o1 ++ " | " ++ formatFilterDisplay o2)%string) /\
  (o1 <> [] -> ~ In k (obj_keys o1) ->
     formatFilterDisplay (obj_set o1 k v) = (formatFilterDisplay o1 ++ " | " ++ k ++ ": " ++ v)%string).
Proof.
  assert (Happ : forall o1 o2, o1 <> [] -> o2 <> [] ->
     formatFilterDisplay (o1 ++ o2) = (formatFilterDisplay o1 ++ " | " ++ formatFilterDisplay o2)%string).
  { intros a b Ha Hb. unfold formatFilterDisplay. rewrite map_app.
    apply join_app; [destruct a; [contradiction|discriminate]|destruct b; [contradiction|discriminate]]. }
  split; [|split; [apply Happ|]].
  - split; [|intros ->; reflexivity].
    destruct o1 as [|[k1 v1] o1]; [reflexivity|].
    intros E. exfalso. revert E. apply join_entry_empty, entry_nonempty.
  - intros Hne Hno. rewrite obj_set_new by exact Hno. rewrite Happ by (auto; discriminate).
    reflexivity.
Qed.

(** Deleting. *)

(** [deleteReport(reportId)] removes every record carrying that id (ids
    come from [Date.now()] and may repeat): none is left, the others stay
    in order, and the history shrinks by their number. *)
Theorem delete_removes_all_with_id s rid :
  let h := reportHistory s in
  let h' := reportHistory (step (Delete rid) s) in
  ~ In rid (map id h') /\
  h' = filter (fun r => negb (id r =? rid)) h /\
  length h = (length h' + count_occ Z.eq_dec (map id h) rid)%nat.
Proof.
  intros h h'. unfold h', h. simpl.
  split; [|split; [reflexivity|]].
  - intros Hin. apply in_map_iff in Hin. destruct Hin as (r & Hr & Hin).
    apply filter_In in Hin. destruct Hin as [_ Hn]. rewrite Hr, Z.eqb_refl in Hn. discriminate.
  - generalize (reportHistory s). induction l as [|x l IH]; simpl; [reflexivity|].
    destruct (Z.eqb_spec (id x) rid) as [E|E]; simpl.
    + destruct (Z.eq_dec (id x) rid); [rewrite IH; lia|contradiction].
    + destruct (Z.eq_dec (id x) rid); [contradiction|]. rewrite IH. reflexivity.
Qed.

(** In a reachable state, the Reports Hub after a delete lists exactly
    the rows it listed before, minus the deleted id and minus every row
    that has expired since the list was last computed: the delete re-runs
    the expiry filter at the current time. *)
Theorem delete_hub_rows s rid :
  reachable s ->
  forall r, In r (activeReports (step (Delete rid) s)) <->
            In r (activeReports s) /\ id r <> rid /\ clock s < expirationDate r.
Proof.
  intros Hr r. pose proof (reachable_memo_le s Hr) as Ht.
  destruct Hr as (t0 & evs & _ & Hs).
  assert (Hm : memo_inv s) by (rewrite <- Hs; apply memo_inv_run; reflexivity).
  unfold memo_inv in Hm. rewrite Hm. simpl. unfold active_at.
  rewrite !filter_In, Z.ltb_lt, negb_true_iff, Z.eqb_neq, Z.ltb_lt.
  split.
  - intros [[Hin Hne] Hexp]. split; [split; [exact Hin|lia]|]. split; assumption.
  - intros [[Hin _] [Hne Hexp]]. split; [split; assumption|exact Hexp].
Qed.

Lemma delete_hub_rows_witness :
  reachable s_hub /\
  (forall r, In r (activeReports (step (Delete 2) s_hub)) <->
             In r (activeReports s_hub) /\ id r <> 2 /\ clock s_hub < expirationDate r) /\
  map id (activeReports s_hub) = [3; 2; 1] /\
  map id (activeReports (step (Delete 2) s_hub)) = [3].
Proof.
  assert (Hr : reachable s_hub)
    by (exists 0, trace_hub; split; [vm_compute; reflexivity | unfold s_hub; reflexivity]).
  split; [exact Hr|]. split; [exact (delete_hub_rows s_hub 2 Hr)|].
  vm_compute. split; reflexivity.
Defined.

(** The download link. *)

Lemma digits_aux_val f : forall n acc,
  0 <= n < 10 ^ Z.of_nat f ->
  str_val (digits_aux f n acc) = n * 10 ^ Z.of_nat (String.length acc) + str_val acc.
Proof.
  induction f as [|f IH]; intros n acc Hn.
  - simpl in Hn. assert (n = 0) as -> by lia. simpl. reflexivity.
  - cbn [digits_aux].
    assert (Hm : 0 <= n mod 10 < 10) by (apply Z.mod_pos_bound; lia).
    assert (Hd : digit_val (ascii_of_nat (48 + Z.to_nat (n mod 10))) = n mod 10).
    { unfold digit_val. rewrite nat_ascii_embedding by lia. lia. }
    destruct (n <? 10) eqn:E.
    + apply Z.ltb_lt in E. cbn [str_val String.length]. rewrite Hd.
      rewrite (Z.mod_small n 10) by lia. reflexivity.
    + apply Z.ltb_ge in E.
      rewrite Nat2Z.inj_succ, Z.pow_succ_r in Hn by lia.
      assert (Hq : 0 <= n / 10 < 10 ^ Z.of_nat f).
      { split; [apply Z.div_pos; lia|apply Z.div_lt_upper_bound; lia]. }
      rewrite (IH (n / 10) _ Hq). cbn [str_val String.length]. rewrite Hd.
      rewrite Nat2Z.inj_succ, Z.pow_succ_r by lia.
      pose proof (Z.div_mod n 10 ltac:(lia)) as Hdm.
      replace (n * 10 ^ Z.of_nat (String.length acc))
        with ((10 * (n / 10) + n mod 10) * 10 ^ Z.of_nat (String.length acc))
        by (rewrite <- Hdm; reflexivity).
      ring.
Qed.

Lemma z_to_string_val n : 0 <= n < 10 ^ 64 -> str_val (z_to_string n) = n.
Proof.
  intros Hn. unfold z_to_string.
  replace (n <? 0) with false by (symmetry; apply Z.ltb_ge; lia).
  rewrite digits_aux_val by exact Hn. simpl. lia.
Qed.

Lemma str_app_cancel (p a b : string) : (p ++ a = p ++ b)%string -> a = b.
Proof.
  induction p as [|c p IH]; simpl; intros H; [exact H|].
  injection H as H. apply IH, H.
Qed.

(** Two completed records have the same download link exactly when the
    [Date.now()] read for their links is the same (for times written with
    at most 64 digits), and the digits after "/api/download-report-" read
    back as that time. *)
Theorem download_link_injective t t' F F' r r' :
  0 <= t_link r < 10 ^ 64 -> 0 <= t_link r' < 10 ^ 64 ->
  (exists suffix, downloadLink (newReport t F r) = ("/api/download-report-" ++ suffix)%string /\
                  str_val suffix = t_link r) /\
  (downloadLink (newReport t F r) = downloadLink (newReport t' F' r') <-> t_link r = t_link r').
Proof.
  intros H1 H2. split.
  - exists (z_to_string (t_link r)). split; [reflexivity|apply z_to_string_val, H1].
  - split.
    + intros E. unfold newReport in E. cbn [downloadLink] in E.
      apply (str_app_cancel "/api/download-report-") in E.
      rewrite <- (z_to_string_val _ H1), <- (z_to_string_val _ H2), E. reflexivity.
    + intros E. simpl. rewrite E. reflexivity.
Qed.

Lemma download_link_injective_witness :
  0 <= t_link (mkReads 0 0 0 1700000000000) < 10 ^ 64 /\
  0 <= t_link (mkReads 0 0 0 1700000000500) < 10 ^ 64 /\
  (exists suffix, downloadLink (newReport sales_report [] (mkReads 0 0 0 1700000000000)) =
                    ("/api/download-report-" ++ suffix)%string /\
                  str_val suffix = t_link (mkReads 0 0 0 1700000000000)) /\
  (downloadLink (newReport sales_report [] (mkReads 0 0 0 1700000000000)) =
     downloadLink (newReport sales_report [] (mkReads 0 0 0 1700000000500)) <->
   t_link (mkReads 0 0 0 1700000000000) = t_link (mkReads 0 0 0 1700000000500)).
Proof.
  assert (H1 : 0 <= t_link (mkReads 0 0 0 1700000000000) < 10 ^ 64) by (simpl; lia).
  assert (H2 : 0 <= t_link (mkReads 0 0 0 1700000000500) < 10 ^ 64) by (simpl; lia).
  split; [exact H1|]. split; [exact H2|].
  exact (download_link_injective sales_report sales_report [] [] _ _ H1 H2).
Defined.

(** Selecting a report type. *)

(** Selecting another report type while a generation runs neither stops
    it nor changes what it records: the form switches to the new type
    with empty filters and no status, and the attempt still completes,
    adding a record of the report and filters it started with. *)
Theorem select_report_keeps_generating s t rs1 rs2 r v :
  reachable s -> selectedReport s = Some t -> (length rs1 + length rs2 = 9)%nat ->
  let i := next_interval s in
  let s1 := run_ticks i rs1 (step Generate s) in
  let s2 := step (SelectReport v) s1 in
  let s3 := run_ticks i (rs2 ++ [r]) s2 in
  generationStatus s1 = Some Generating /\
  selectedReport s2 = lookup_report v REPORT_TYPES /\ filters s2 = [] /\
  generationStatus s2 = None /\ intervals s2 = intervals s1 /\
  generationStatus s3 = Some Completed /\ progress s3 = 100 /\
  selectedReport s3 = lookup_report v REPORT_TYPES /\
  reportHistory s3 = newReport t (filters s) r :: reportHistory s.
Proof.
  intros Hr Hsel Hlen. pose proof (reachable_timer_inv s Hr) as Hinv.
  destruct (generate_eq s Hinv) as (Y & Heq & _).
  pose proof (started_attempt s Y t Hsel) as Ha.
  intros i s1 s2 s3.
  assert (Ha1 : attempt i t (filters s) (0 + 10 * Z.of_nat (length rs1)) s1).
  { unfold s1. change (step Generate s) with (generateReport s). rewrite Heq.
    apply ticks_mid_attempt; [exact Ha|lia]. }
  assert (Hs1 : generationStatus s1 = Some Generating /\ reportHistory s1 = reportHistory s).
  { unfold s1. change (step Generate s) with (generateReport s). rewrite Heq.
    rewrite (ticks_mid i t (filters s) rs1 0 _ Ha) by lia.
    destruct rs1; split; reflexivity. }
  assert (Ha2 : attempt i t (filters s) (0 + 10 * Z.of_nat (length rs1)) s2)
    by (destruct Ha1; split; assumption).
  destruct Hs1 as [Hg1 Hh1].
  split; [exact Hg1|]. split; [reflexivity|]. split; [reflexivity|].
  split; [reflexivity|]. split; [reflexivity|].
  unfold s3. rewrite (ticks_complete i t (filters s) rs2 r _ s2 Ha2) by lia.
  split; [reflexivity|]. split; [reflexivity|]. split; [reflexivity|].
  change (reportHistory s2) with (reportHistory s1). rewrite Hh1. reflexivity.
Qed.

Lemma select_report_keeps_generating_witness :
  reachable s_sales_ready /\ selectedReport s_sales_ready = Some sales_report /\
  let i := next_interval s_sales_ready in
  let s1 := run_ticks i (repeat reads0 3) (step Generate s_sales_ready) in
  let s2 := step (SelectReport "revenue") s1 in
  let s3 := run_ticks i (repeat reads0 6 ++ [reads0]) s2 in
  generationStatus s1 = Some Generating /\
  selectedReport s2 = lookup_report "revenue" REPORT_TYPES /\ filters s2 = [] /\
  generationStatus s2 = None /\ intervals s2 = intervals s1 /\
  generationStatus s3 = Some Completed /\ progress s3 = 100 /\
  selectedReport s3 = lookup_report "revenue" REPORT_TYPES /\
  reportHistory s3 = newReport sales_report (filters s_sales_ready) reads0 :: reportHistory s_sales_ready.
Proof.
  assert (Hr : reachable s_sales_ready)
    by (exists 0, sales_setup; split; [vm_compute; reflexivity | unfold s_sales_ready; reflexivity]).
  assert (Hs : selectedReport s_sales_ready = Some sales_report) by (vm_compute; reflexivity).
  split; [exact Hr|]. split; [exact Hs|].
  exact (select_report_keeps_generating s_sales_ready sales_report (repeat reads0 3) (repeat reads0 6)
           reads0 "revenue" Hr Hs eq_refl).
Defined.
